(** * Cache metrics exporter: a shallow embedding of [cache-metrics-exporter.py]

    The exporter samples cache occupancy, hit/miss counts, physical disk
    usage and network counters of a small fleet of cache containers by
    shelling out, and republishes them through Prometheus gauges.

    Conventions of the embedding.
    - Python [str] is [string]; the text returned by the external commands
      is taken to be ASCII (characters above 127 are neither white space
      nor digits here).
    - Python [int] is [Z].
    - Python's true division [a / b] on integers is modelled by the exact
      rational quotient, and raises [ZeroDivisionError] when [b = 0]; the
      rounding of binary64 is not modelled.  Values handed to a gauge are
      rationals ([Q]), compared with [Qeq].
    - Exceptions are explicit: fallible expressions live in the [exc] monad
      and [try ... except Exception] is [try_except].
    - The dictionaries built by the samplers keep Python's insertion order
      (association lists with in-place update); the gauges' children are a
      finite map from (metric name, label values) to the last value set.
    - [subprocess.run(cmd, shell=True, ...)] is a query to an environment:
      a function from the command issued to the completed process. *)

From Stdlib Require Import ZArith QArith Lia List String Ascii DecimalString.
From stdpp Require Import base option list gmap strings.

Local Open Scope Z_scope.
Local Open Scope string_scope.

(** ** Python string primitives used by the exporter *)
Module PyStr.

(** [str.isspace] on one ASCII character: TAB, LF, VT, FF, CR, the four
    separators FS, GS, RS, US, and the space. *)
Definition is_space (c : ascii) : bool :=
  let n := nat_of_ascii c in
  ((9 <=? n)%nat && (n <=? 13)%nat) || ((28 <=? n)%nat && (n <=? 32)%nat).

Definition is_digit (c : ascii) : bool :=
  let n := nat_of_ascii c in (48 <=? n)%nat && (n <=? 57)%nat.

Definition digit_val (c : ascii) : Z := Z.of_nat (nat_of_ascii c) - 48.

(** Truth value of a string: non-empty. *)
Definition truthy (s : string) : bool :=
  match s with EmptyString => false | String _ _ => true end.

Fixpoint lstrip (s : string) : string :=
  match s with
  | EmptyString => EmptyString
  | String c s' => if is_space c then lstrip s' else s
  end.

Fixpoint rstrip (s : string) : string :=
  match s with
  | EmptyString => EmptyString
  | String c s' =>
      match rstrip s' with
      | EmptyString => if is_space c then EmptyString else String c EmptyString
      | r => String c r
      end
  end.

(** [s.strip()] *)
Definition strip (s : string) : string := rstrip (lstrip s).

(** [s.split()]: maximal runs of non-space characters. *)
Fixpoint split_ws (s : string) : list string :=
  match s with
  | EmptyString => []
  | String c s' =>
      if is_space c then split_ws s'
      else
        match s' with
        | EmptyString => [String c EmptyString]
        | String c' _ =>
            if is_space c' then String c EmptyString :: split_ws s'
            else
              match split_ws s' with
              | w :: ws => String c w :: ws
              | [] => [String c EmptyString]
              end
        end
  end.

(** [sub in s] *)
Fixpoint contains (sub s : string) : bool :=
  String.prefix sub s ||
  match s with
  | EmptyString => false
  | String _ s' => contains sub s'
  end.

Definition may_split (limit : option nat) : bool :=
  match limit with Some O => false | _ => true end.

Definition spend (limit : option nat) : option nat :=
  match limit with Some (S k) => Some k | l => l end.

(** Scanner of [s.split(sep)] and [s.split(sep, maxsplit)] for a
    non-empty [sep]: [skip] counts the characters of a separator just
    matched that are still to be dropped, [cur] is the current piece,
    reversed. *)
Fixpoint split_go (sep : string) (limit : option nat) (skip : nat)
    (cur : string) (s : string) : list string :=
  match s with
  | EmptyString => [String.rev cur]
  | String c s' =>
      match skip with
      | S k => split_go sep limit k cur s'
      | O =>
          if may_split limit && String.prefix sep s
          then String.rev cur
                 :: split_go sep (spend limit) (String.length sep - 1) EmptyString s'
          else split_go sep limit O (String c cur) s'
      end
  end.

(** [s.split(sep)] *)
Definition split (sep s : string) : list string :=
  split_go sep None O EmptyString s.

(** [s.split(sep, maxsplit)] *)
Definition split_max (sep : string) (maxsplit : nat) (s : string) : list string :=
  split_go sep (Some maxsplit) O EmptyString s.

(** [s.replace(old, new)] for a non-empty [old]. *)
Fixpoint replace_go (old new : string) (skip : nat) (s : string) : string :=
  match s with
  | EmptyString => EmptyString
  | String c s' =>
      match skip with
      | S k => replace_go old new k s'
      | O =>
          if String.prefix old s
          then new +:+ replace_go old new (String.length old - 1) s'
          else String c (replace_go old new O s')
      end
  end.

Definition replace (old new s : string) : string := replace_go old new O s.

(** [s.isdigit()] on ASCII text, where the digits are the characters 0 to 9.
    (On other text [str.isdigit] also holds of digits that [int] rejects;
    what is proved of slot detection is stated for ASCII listings.) *)
Fixpoint all_digits (s : string) : bool :=
  match s with
  | EmptyString => true
  | String c s' => is_digit c && all_digits s'
  end.

Definition isdigit (s : string) : bool := truthy s && all_digits s.

(** Line boundaries of [str.splitlines] within ASCII: LF, VT, FF, CR,
    FS, GS, RS (and CR LF as one boundary). *)
Definition is_linebreak (c : ascii) : bool :=
  let n := nat_of_ascii c in
  ((10 <=? n)%nat && (n <=? 13)%nat) || ((28 <=? n)%nat && (n <=? 30)%nat).

Definition is_cr (c : ascii) : bool := (nat_of_ascii c =? 13)%nat.
Definition is_lf (c : ascii) : bool := (nat_of_ascii c =? 10)%nat.

Fixpoint splitlines_go (cur : string) (s : string) : list string :=
  match s with
  | EmptyString =>
      match cur with EmptyString => [] | _ => [String.rev cur] end
  | String c s' =>
      if is_linebreak c then
        String.rev cur ::
          match s' with
          | String c' s'' =>
              if is_cr c && is_lf c' then splitlines_go EmptyString s''
              else splitlines_go EmptyString s'
          | EmptyString => []
          end
      else splitlines_go (String c cur) s'
  end.

(** [s.splitlines()] *)
Definition splitlines (s : string) : list string := splitlines_go EmptyString s.

(** Decimal digits with single underscores between them, as [int]
    accepts them; [prev] tells whether the previous character was a
    digit. *)
Fixpoint digits_go (acc : Z) (prev : bool) (s : string) : option Z :=
  match s with
  | EmptyString => if prev then Some acc else None
  | String c s' =>
      if is_digit c then digits_go (10 * acc + digit_val c) true s'
      else if (nat_of_ascii c =? 95)%nat && prev then digits_go acc false s'
      else None
  end.

(** [int(s)]: [None] stands for the [ValueError]. *)
Definition parse_int (s : string) : option Z :=
  match strip s with
  | String c r =>
      if (nat_of_ascii c =? 45)%nat then Z.opp <$> digits_go 0 false r
      else if (nat_of_ascii c =? 43)%nat then digits_go 0 false r
      else digits_go 0 false (String c r)
  | EmptyString => None
  end.

(** [str(n)] for an integer, as an f-string formats it. *)
Definition of_Z (n : Z) : string :=
  DecimalString.NilZero.string_of_int (Z.to_int n).

End PyStr.

(** ** Exceptions *)

(** The exception classes that the modelled expressions can raise. *)
Inductive exn : Type :=
  | ValueError          (* [int] of a non-numeric string *)
  | IndexError          (* list index out of range *)
  | UnboundLocalError   (* a local variable read before assignment *)
  | ZeroDivisionError.  (* true division by zero *)

(** [isinstance(e, Exception)]: what [except Exception] catches.  All four
    classes derive from [Exception]. *)
Definition is_Exception (e : exn) : bool :=
  match e with
  | ValueError | IndexError | UnboundLocalError | ZeroDivisionError => true
  end.

Inductive exc (A : Type) : Type :=
  | Ok (a : A)
  | Raise (e : exn).
Arguments Ok {A} a.
Arguments Raise {A} e.

Global Instance exc_ret : MRet exc := λ A a, Ok a.

Global Instance exc_bind : MBind exc := λ A B k m,
  match m with
  | Ok a => k a
  | Raise e => Raise e
  end.

(** [try: body / except Exception as e: handler e]; an exception that is
    not an [Exception] passes through. *)
Definition try_except {A : Type} (body : exc A) (handler : exn → exc A) : exc A :=
  match body with
  | Ok a => Ok a
  | Raise e => if is_Exception e then handler e else Raise e
  end.

(** [int(s)] *)
Definition int (s : string) : exc Z :=
  match PyStr.parse_int s with
  | Some n => Ok n
  | None => Raise ValueError
  end.

(** [l[i]] for a non-negative literal index. *)
Definition index {A : Type} (l : list A) (i : nat) : exc A :=
  match l !! i with
  | Some a => Ok a
  | None => Raise IndexError
  end.

(** [l[-1]] *)
Definition last_item {A : Type} (l : list A) : exc A :=
  match last l with
  | Some a => Ok a
  | None => Raise IndexError
  end.

(** Reading a local variable that some paths leave unassigned. *)
Definition read_local {A : Type} (v : option A) : exc A :=
  match v with
  | Some a => Ok a
  | None => Raise UnboundLocalError
  end.

(** [a / b] on integers. *)
Definition true_div (a b : Z) : exc Q :=
  if (b =? 0)%Z then Raise ZeroDivisionError
  else Ok (inject_Z a / inject_Z b)%Q.

(** [for x in l: acc = step acc x], where the step may raise. *)
Fixpoint for_each {A St : Type} (step : St → A → exc St) (l : list A) (acc : St) : exc St :=
  match l with
  | [] => Ok acc
  | x :: l' => acc' ← step acc x; for_each step l' acc'
  end.

(** ** Dictionaries with string keys, in insertion order *)

Definition dict (V : Type) : Type := list (string * V).

Fixpoint dict_get {V : Type} (k : string) (d : dict V) : option V :=
  match d with
  | [] => None
  | (k', v) :: d' => if String.eqb k k' then Some v else dict_get k d'
  end.

(** [d[k] = v]: an existing key keeps its position. *)
Fixpoint dict_set {V : Type} (k : string) (v : V) (d : dict V) : dict V :=
  match d with
  | [] => [(k, v)]
  | (k', v') :: d' =>
      if String.eqb k k' then (k, v) :: d' else (k', v') :: dict_set k v d'
  end.

(** [k in d] *)
Definition dict_mem {V : Type} (k : string) (d : dict V) : bool :=
  match dict_get k d with Some _ => true | None => false end.

(** ** The outside world *)

(** The shell commands the exporter issues.  Each constructor stands for
    one command line of the source, with the interpolated parts as
    arguments. *)
Inductive command : Type :=
  | DockerPs
      (* docker ps --format '{{.Names}}' | grep 'tc-nginx-nginx-cache-[0-9]' | sort *)
  | LsDisks (container : string)
      (* docker exec {container} ls -d /cache/disk* 2>/dev/null *)
  | DuDisk (container : string) (disk : Z)
      (* docker exec {container} du -sb /cache/disk{disk} *)
  | FindCount (container : string) (disk : Z)
      (* docker exec {container} find /cache/disk{disk} -type f | wc -l *)
  | LogsCacheStatus (container : string)
      (* docker logs {container} --tail 1000 2>&1 | grep CacheStatus *)
  | Df (mount_path : string)
      (* df -B1 {mount_path} 2>/dev/null | tail -n1 *)
  | NetDev (container : string).
      (* docker exec {container} cat /proc/net/dev | grep eth0 *)

(** [subprocess.CompletedProcess], as far as the exporter reads it. *)
Record completed : Type := Completed { returncode : Z; stdout : string }.

(** One state of the outside world: what each command answers. *)
Definition world : Type := command → completed.

(** The container a command is run against, if any. *)
Definition target (c : command) : option string :=
  match c with
  | LsDisks k | DuDisk k _ | FindCount k _ | LogsCacheStatus k | NetDev k => Some k
  | DockerPs | Df _ => None
  end.

(** ** Samples *)

Record cache_stats : Type := CacheStats {
  cache_size : Z;
  object_count : Z;
  hits : Z;
  misses : Z
}.

Definition zero_cache_stats : cache_stats := CacheStats 0 0 0 0.

Record disk_stat : Type := DiskStat {
  total : Z;
  used : Z;
  available : Z;
  percent : Q
}.

Definition zero_disk_stat : disk_stat := DiskStat 0 0 0 0%Q.

Record net_stat : Type := NetStat {
  rx_bytes : Z;
  rx_packets : Z;
  tx_bytes : Z;
  tx_packets : Z
}.

Definition zero_net_stat : net_stat := NetStat 0 0 0 0.

(** ** The cache sampler: [get_docker_cache_stats] *)

(** The newline character, the separator of [split('\n')]. *)
Definition nl : string := String (ascii_of_nat 10) EmptyString.

(** One line of the slot listing (the body of [for line in ...]): a line
    [/cache/disk<digits>] contributes its number to [available_disks]. *)
Definition available_disks_step (available_disks : list Z) (line : string)
    : exc (list Z) :=
  if PyStr.contains "/cache/disk" line then
    let disk_num := PyStr.replace "/cache/disk" "" line in
    if PyStr.isdigit disk_num
    then n ← int disk_num; Ok (available_disks ++ [n])%list
    else Ok available_disks
  else Ok available_disks.

(** Which slot directories exist in the container. *)
Definition detect_disks (w : world) (container : string) : exc (list Z) :=
  let result := w (LsDisks container) in
  if (returncode result =? 0)%Z && PyStr.truthy (PyStr.strip (stdout result))
  then for_each available_disks_step
         (PyStr.split nl (PyStr.strip (stdout result))) []
  else Ok [].

(** The body of [for disk in disks_to_check], on the pair
    [(cache_size, object_count)]. *)
Definition disk_step (w : world) (container : string) (acc : Z * Z) (disk : Z)
    : exc (Z * Z) :=
  let '(cache_size, object_count) := acc in
  let result := w (DuDisk container disk) in
  cache_size ←
    (if (returncode result =? 0)%Z && PyStr.truthy (PyStr.strip (stdout result))
     then size ← index (PyStr.split_ws (PyStr.strip (stdout result))) 0;
          n ← int size;
          Ok (cache_size + n)
     else Ok cache_size);
  let result := w (FindCount container disk) in
  object_count ←
    (if (returncode result =? 0)%Z
     then n ← int (PyStr.strip (stdout result)); Ok (object_count + n)
     else Ok object_count);
  Ok (cache_size, object_count).

(** The body of [for line in result.stdout.splitlines()], on the pair
    [(hits, misses)]. *)
Definition count_step (acc : Z * Z) (line : string) : Z * Z :=
  let '(hits, misses) := acc in
  if PyStr.contains "CacheStatus=HIT" line then (hits + 1, misses)
  else if PyStr.contains "CacheStatus=MISS" line then (hits, misses + 1)
  else (hits, misses).

(** The statements of the [try] block up to the dictionary literal: the
    record sampled from one container. *)
Definition sample_container (w : world) (container : string) : exc cache_stats :=
  available_disks ← detect_disks w container;
  let disks_to_check :=
    match available_disks with [] => [1; 2; 3; 4] | _ => available_disks end in
  '(cache_size, object_count) ←
    for_each (disk_step w container) disks_to_check (0, 0);
  let result := w (LogsCacheStatus container) in
  let '(hits, misses) :=
    if (returncode result =? 0)%Z && PyStr.truthy (stdout result)
    then fold_left count_step (PyStr.splitlines (stdout result)) (0, 0)
    else (0, 0) in
  Ok (CacheStats cache_size object_count hits misses).

(** The node name derived from a container name, when it carries the
    marker: [tc-nginx-nginx-cache-1-1] gives [nginx-cache-1]. *)
Definition node_name_of (container : string) : exc string :=
  rest ← index (PyStr.split "nginx-cache-" container) 1;
  node_num ← index (PyStr.split "-" rest) 0;
  Ok ("nginx-cache-" +:+ node_num).

(** The body of [for container in containers].  The loop state is the
    local [node_name] ([None] while unassigned) and [stats].  The
    assignment to [node_name] sits outside the [try]; the handler prints
    [node_name] before it stores the zero record. *)
Definition container_step (w : world) (st : option string * dict cache_stats)
    (container : string) : exc (option string * dict cache_stats) :=
  let '(node_name, stats) := st in
  node_name ←
    (if PyStr.contains "nginx-cache-" container
     then n ← node_name_of container; Ok (Some n)
     else Ok node_name);
  try_except
    (s ← sample_container w container;
     n ← read_local node_name;
     Ok (node_name, dict_set n s stats))
    (λ _,
     n ← read_local node_name;
     Ok (node_name, dict_set n zero_cache_stats stats)).

(** The container names found by the discovery command. *)
Definition containers (w : world) : list string :=
  let result := w DockerPs in
  if PyStr.truthy (PyStr.strip (stdout result))
  then PyStr.split nl (PyStr.strip (stdout result))
  else [].

Definition get_docker_cache_stats (w : world) : exc (dict cache_stats) :=
  let stats : dict cache_stats := [] in
  '(_, stats) ← for_each (container_step w) (containers w) (None, stats);
  Ok stats.

(** ** The disk sampler: [get_disk_stats] *)

Definition disk_mounts : dict string :=
  [("disk1", "/mnt/disk1"); ("disk2", "/mnt/disk2");
   ("disk3", "/mnt/disk3"); ("disk4", "/mnt/disk4")].

(** The [try] block for one mount, up to the record stored. *)
Definition read_disk (w : world) (mount_path : string) : exc disk_stat :=
  let result := w (Df mount_path) in
  if (returncode result =? 0)%Z then
    let parts := PyStr.split_ws (PyStr.strip (stdout result)) in
    if (4 <=? length parts)%nat then
      p1 ← index parts 1; total ← int p1;
      p2 ← index parts 2; used ← int p2;
      p3 ← index parts 3; available ← int p3;
      percent ←
        (if (0 <? total)%Z
         then q ← true_div used total; Ok (q * 100)%Q
         else Ok 0%Q);
      Ok (DiskStat total used available percent)
    else Ok zero_disk_stat
  else Ok zero_disk_stat.

Definition disk_mount_step (w : world) (disk_stats : dict disk_stat)
    (mount : string * string) : exc (dict disk_stat) :=
  let '(disk_name, mount_path) := mount in
  try_except
    (s ← read_disk w mount_path; Ok (dict_set disk_name s disk_stats))
    (λ _, Ok (dict_set disk_name zero_disk_stat disk_stats)).

Definition get_disk_stats (w : world) : exc (dict disk_stat) :=
  for_each (disk_mount_step w) disk_mounts [].

(** ** The network sampler: [get_network_stats] *)

(** The [try] block for one node, up to the record stored. *)
Definition read_net (w : world) (container : string) : exc net_stat :=
  let result := w (NetDev container) in
  if (returncode result =? 0)%Z && PyStr.truthy (stdout result) then
    let line := PyStr.strip (stdout result) in
    if PyStr.contains ":" line then
      rest ← index (PyStr.split_max ":" 1 line) 1;
      let parts := PyStr.split_ws (PyStr.strip rest) in
      if (9 <=? length parts)%nat then
        p0 ← index parts 0; rxb ← int p0;
        p1 ← index parts 1; rxp ← int p1;
        p8 ← index parts 8; txb ← int p8;
        p9 ← index parts 9; txp ← int p9;
        Ok (NetStat rxb rxp txb txp)
      else Ok zero_net_stat
    else Ok zero_net_stat
  else Ok zero_net_stat.

(** The node name and the container name of an ordinal. *)
Definition node_of_ordinal (node : Z) : string := "nginx-cache-" +:+ PyStr.of_Z node.
Definition container_of_ordinal (node : Z) : string :=
  "tc-nginx-nginx-cache-" +:+ PyStr.of_Z node +:+ "-1".

Definition net_node_step (w : world) (net_stats : dict net_stat) (node : Z)
    : exc (dict net_stat) :=
  let node_name := node_of_ordinal node in
  let container := container_of_ordinal node in
  try_except
    (s ← read_net w container; Ok (dict_set node_name s net_stats))
    (λ _, Ok (dict_set node_name zero_net_stat net_stats)).

(** [range(1, 5)] *)
Definition node_ordinals : list Z := [1; 2; 3; 4].

Definition get_network_stats (w : world) : exc (dict net_stat) :=
  for_each (net_node_step w) node_ordinals [].

(** ** The gauges and their registry *)

(** [Gauge(name, documentation, labelnames)] *)
Record gauge : Type := Gauge {
  g_name : string;
  g_documentation : string;
  g_labelnames : list string
}.

Definition cache_used_bytes : gauge :=
  Gauge "nginx_cache_disk_used_bytes" "Bytes used in cache" ["node"; "disk"].
Definition cache_total_bytes : gauge :=
  Gauge "nginx_cache_disk_total_bytes" "Total cache capacity in bytes" ["node"; "disk"].
Definition cache_object_count : gauge :=
  Gauge "nginx_cache_object_count" "Number of cached objects" ["node"].
Definition cache_usage_percent : gauge :=
  Gauge "nginx_cache_disk_usage_percent" "Cache disk usage percentage" ["node"; "disk"].
Definition cache_hits : gauge :=
  Gauge "nginx_cache_hits_total" "Total cache hits" ["node"].
Definition cache_misses : gauge :=
  Gauge "nginx_cache_misses_total" "Total cache misses" ["node"].
Definition cache_hit_ratio : gauge :=
  Gauge "nginx_cache_hit_ratio" "Cache hit ratio percentage" ["node"].
Definition network_rx_bytes : gauge :=
  Gauge "network_interface_rx_bytes" "Network interface received bytes" ["interface"].
Definition network_tx_bytes : gauge :=
  Gauge "network_interface_tx_bytes" "Network interface transmitted bytes" ["interface"].
Definition network_rx_packets : gauge :=
  Gauge "network_interface_rx_packets" "Network interface received packets" ["interface"].
Definition network_tx_packets : gauge :=
  Gauge "network_interface_tx_packets" "Network interface transmitted packets" ["interface"].

(** The gauges of the module, in declaration order. *)
Definition gauges : list gauge :=
  [cache_used_bytes; cache_total_bytes; cache_object_count; cache_usage_percent;
   cache_hits; cache_misses; cache_hit_ratio;
   network_rx_bytes; network_tx_bytes; network_rx_packets; network_tx_packets].

(** A series is a metric name with its label values, in the order of the
    gauge's label names. *)
Abbreviation series := (string * list string)%type.

(** The published metric set: the value of every series that exists. *)
Abbreviation registry := (gmap series Q).

(** The label values picked out of the keyword arguments, one per label
    name. *)
Fixpoint label_values (names : list string) (kwargs : dict string)
    : option (list string) :=
  match names with
  | [] => Some []
  | l :: names' =>
      v ← dict_get l kwargs; vs ← label_values names' kwargs; Some (v :: vs)
  end.

(** The series addressed by [g.labels(k1=v1, ...)]; the client library
    raises [ValueError] unless the keywords are exactly the label names. *)
Definition child (g : gauge) (kwargs : dict string) : exc series :=
  if (length kwargs =? length (g_labelnames g))%nat then
    match label_values (g_labelnames g) kwargs with
    | Some vs => Ok (g_name g, vs)
    | None => Raise ValueError
    end
  else Raise ValueError.

(** Commands on the registry: they end normally or by an exception, and
    in both cases leave a registry behind. *)
Inductive outcome (A : Type) : Type :=
  | Done (a : A) (reg : registry)
  | Failed (e : exn) (reg : registry).
Arguments Done {A} a reg.
Arguments Failed {A} e reg.

Definition upd (A : Type) : Type := registry → outcome A.

Global Instance upd_ret : MRet upd := λ A a reg, Done a reg.

Global Instance upd_bind : MBind upd := λ A B k m reg,
  match m reg with
  | Done a reg' => k a reg'
  | Failed e reg' => Failed e reg'
  end.

(** An expression that does not touch the registry. *)
Definition lift {A : Type} (m : exc A) : upd A := λ reg,
  match m with
  | Ok a => Done a reg
  | Raise e => Failed e reg
  end.

(** [g.labels(k1=v1, ...)]: the child is created with value 0 when the
    series does not exist yet. *)
Definition labels (g : gauge) (kwargs : dict string) : upd series := λ reg,
  match child g kwargs with
  | Ok s =>
      Done s (match reg !! s with Some _ => reg | None => <[s := 0%Q]> reg end)
  | Raise e => Failed e reg
  end.

(** [child.set(v)] *)
Definition set (s : series) (v : Q) : upd unit := λ reg, Done () (<[s := v]> reg).

(** [for x in l: ...] over registry commands. *)
Fixpoint upd_for {A St : Type} (step : St → A → upd St) (l : list A) (acc : St)
    : upd St :=
  match l with
  | [] => mret acc
  | x :: l' => acc' ← step acc x; upd_for step l' acc'
  end.

(** ** The aggregator: [update_metrics] *)

(** The per-node capacity written in the source: [10 * 1024 * 1024 * 1024]. *)
Definition node_ceiling : Z := 10 * 1024 * 1024 * 1024.

(** The body of [for i in range(1, 5)]: the series of a node that the
    cache sampler did not report are set to 0. *)
Definition zero_fill_step (docker_stats : dict cache_stats) (_ : unit) (i : Z)
    : upd unit :=
  let node_name := node_of_ordinal i in
  if negb (dict_mem node_name docker_stats) then
    (c ← labels cache_object_count [("node", node_name)]; set c 0%Q);;
    (c ← labels cache_used_bytes [("node", node_name); ("disk", "cache")]; set c 0%Q);;
    (c ← labels cache_total_bytes [("node", node_name); ("disk", "cache")]; set c 0%Q);;
    (c ← labels cache_usage_percent [("node", node_name); ("disk", "cache")]; set c 0%Q);;
    (c ← labels cache_hits [("node", node_name)]; set c 0%Q);;
    (c ← labels cache_misses [("node", node_name)]; set c 0%Q);;
    (c ← labels cache_hit_ratio [("node", node_name)]; set c 0%Q)
  else mret ().

(** The body of [for node_name, stats in docker_stats.items()], on the
    accumulators [(total_cache_used, total_objects, total_hits,
    total_misses)]. *)
Definition node_step (acc : Z * Z * Z * Z) (item : string * cache_stats)
    : upd (Z * Z * Z * Z) :=
  let '(total_cache_used, total_objects, total_hits, total_misses) := acc in
  let '(node_name, stats) := item in
  node_num ← lift (last_item (PyStr.split "-" node_name));
  (c ← labels cache_object_count [("node", node_name)];
   set c (inject_Z (object_count stats)));;
  let total_cache_used := total_cache_used + cache_size stats in
  let total_objects := total_objects + object_count stats in
  let total_hits := total_hits + hits stats in
  let total_misses := total_misses + misses stats in
  (c ← labels cache_used_bytes [("node", node_name); ("disk", "cache")];
   set c (inject_Z (cache_size stats)));;
  (c ← labels cache_total_bytes [("node", node_name); ("disk", "cache")];
   set c (inject_Z node_ceiling));;
  (c ← labels cache_usage_percent [("node", node_name); ("disk", "cache")];
   v ← lift (if (0 <? cache_size stats)%Z
             then q ← true_div (cache_size stats) node_ceiling; Ok (q * 100)%Q
             else Ok 0%Q);
   set c v);;
  (c ← labels cache_hits [("node", node_name)]; set c (inject_Z (hits stats)));;
  (c ← labels cache_misses [("node", node_name)]; set c (inject_Z (misses stats)));;
  hit_ratio ← lift (if (0 <? hits stats + misses stats)%Z
                    then q ← true_div (hits stats) (hits stats + misses stats);
                         Ok (q * 100)%Q
                    else Ok 0%Q);
  (c ← labels cache_hit_ratio [("node", node_name)]; set c hit_ratio);;
  mret (total_cache_used, total_objects, total_hits, total_misses).

(** The body of [for disk_name, stats in disk_stats.items()], on the
    accumulators [(total_physical_capacity, total_physical_used)]. *)
Definition disk_step_publish (acc : Z * Z) (item : string * disk_stat)
    : upd (Z * Z) :=
  let '(total_physical_capacity, total_physical_used) := acc in
  let '(disk_name, stats) := item in
  (c ← labels cache_used_bytes [("node", "physical"); ("disk", disk_name)];
   set c (inject_Z (used stats)));;
  (c ← labels cache_total_bytes [("node", "physical"); ("disk", disk_name)];
   set c (inject_Z (total stats)));;
  (c ← labels cache_usage_percent [("node", "physical"); ("disk", disk_name)];
   set c (percent stats));;
  mret (total_physical_capacity + total stats, total_physical_used + used stats).

(** The body of [for iface, stats in net_stats.items()]. *)
Definition net_step_publish (_ : unit) (item : string * net_stat) : upd unit :=
  let '(iface, stats) := item in
  (c ← labels network_rx_bytes [("interface", iface)]; set c (inject_Z (rx_bytes stats)));;
  (c ← labels network_tx_bytes [("interface", iface)]; set c (inject_Z (tx_bytes stats)));;
  (c ← labels network_rx_packets [("interface", iface)];
   set c (inject_Z (rx_packets stats)));;
  (c ← labels network_tx_packets [("interface", iface)];
   set c (inject_Z (tx_packets stats))).

Definition update_metrics (w : world) : upd unit :=
  docker_stats ← lift (get_docker_cache_stats w);
  upd_for (zero_fill_step docker_stats) node_ordinals ();;
  '(total_cache_used, total_objects, total_hits, total_misses) ←
    upd_for node_step docker_stats (0, 0, 0, 0);
  disk_stats ← lift (get_disk_stats w);
  '(total_physical_capacity, total_physical_used) ←
    upd_for disk_step_publish disk_stats (0, 0);
  (c ← labels cache_used_bytes [("node", "all"); ("disk", "total")];
   set c (inject_Z total_cache_used));;
  (c ← labels cache_total_bytes [("node", "all"); ("disk", "total")];
   set c (inject_Z total_physical_capacity));;
  (c ← labels cache_usage_percent [("node", "all"); ("disk", "total")];
   v ← lift (if (0 <? total_physical_capacity)%Z
             then q ← true_div total_cache_used total_physical_capacity;
                  Ok (q * 100)%Q
             else Ok 0%Q);
   set c v);;
  (c ← labels cache_hits [("node", "all")]; set c (inject_Z total_hits));;
  (c ← labels cache_misses [("node", "all")]; set c (inject_Z total_misses));;
  total_hit_ratio ← lift (if (0 <? total_hits + total_misses)%Z
                          then q ← true_div total_hits (total_hits + total_misses);
                               Ok (q * 100)%Q
                          else Ok 0%Q);
  (c ← labels cache_hit_ratio [("node", "all")]; set c total_hit_ratio);;
  net_stats ← lift (get_network_stats w);
  upd_for net_step_publish net_stats ().

(** ** The main loop *)

Inductive event : Type :=
  | ServerStarted (port : Z)       (* start_http_server(9199) and its message *)
  | MetricsUpdated                 (* print("Metrics updated at ...") *)
  | ErrorLogged (e : exn)          (* print("Error updating metrics: ...") *)
  | Slept (seconds : Z).           (* time.sleep(30) *)

(** The process is inside the loop, or an exception has left [main]. *)
Inductive process : Type :=
  | Running (reg : registry) (trace : list event)
  | Crashed (e : exn) (reg : registry) (trace : list event).

(** One iteration of [while True], in the world of that moment. *)
Definition main_cycle (w : world) (reg : registry) (trace : list event) : process :=
  match update_metrics w reg with
  | Done _ reg' => Running reg' (trace ++ [MetricsUpdated; Slept 30])
  | Failed e reg' =>
      if is_Exception e
      then Running reg' (trace ++ [ErrorLogged e; Slept 30])
      else Crashed e reg' trace
  end.

(** The iterations of the loop against the successive worlds. *)
Fixpoint main_cycles (worlds : list world) (p : process) : process :=
  match worlds with
  | [] => p
  | w :: worlds' =>
      match p with
      | Running reg trace => main_cycles worlds' (main_cycle w reg trace)
      | Crashed _ _ _ => p
      end
  end.

(** [main()], observed after as many iterations as there are worlds. *)
Definition main (worlds : list world) : process :=
  main_cycles worlds (Running ∅ [ServerStarted 9199]).

(** ** Derived forms used to state the results *)

(** The value a [try ... except Exception] block stores when its handler
    stores [zero]: the sampled record, or [zero] after an exception. *)
Definition or_zero {A : Type} (zero : A) (m : exc A) : A :=
  match m with
  | Ok a => a
  | Raise _ => zero
  end.

(** The records the three samplers store for one container or mount. *)
Definition cache_record (w : world) (container : string) : cache_stats :=
  or_zero zero_cache_stats (sample_container w container).
Definition disk_record (w : world) (mount_path : string) : disk_stat :=
  or_zero zero_disk_stat (read_disk w mount_path).
Definition net_record (w : world) (container : string) : net_stat :=
  or_zero zero_net_stat (read_net w container).

(** Every name found by the discovery command carries the marker
    [nginx-cache-]; the [grep 'tc-nginx-nginx-cache-[0-9]'] of the
    discovery pipeline lets no other line through. *)
Definition discovery_ok (w : world) : bool :=
  forallb (PyStr.contains "nginx-cache-") (containers w).

(** The node name a container is filed under ([""] if it has none). *)
Definition node_label (container : string) : string :=
  or_zero "" (node_name_of container).

(** The value of [(a / b * 100) if guard else 0]. *)
Definition percent_if (guard : bool) (a b : Z) : Q :=
  if guard then (inject_Z a / inject_Z b * 100)%Q else 0%Q.

(** Two worlds that answer alike every command not run against
    [container]. *)
Definition same_outside (container : string) (w w' : world) : Prop :=
  ∀ c, target c ≠ Some container → w' c = w c.

(** A series of a one-label gauge, and of a two-label gauge. *)
Definition series1 (g : gauge) (l1 : string) : series := (g_name g, [l1]).
Definition series2 (g : gauge) (l1 l2 : string) : series := (g_name g, [l1; l2]).

(** A sequence of [set] calls, as the pairs (series, value) in the order
    they are made, and its effect on the registry. *)
Abbreviation writes := (list (series * Q)).

Fixpoint apply_writes (ws : writes) (reg : registry) : registry :=
  match ws with
  | [] => reg
  | (k, v) :: ws' => apply_writes ws' (<[k := v]> reg)
  end.

Definition zero_writes (n : string) : writes :=
  [(series1 cache_object_count n, 0%Q);
   (series2 cache_used_bytes n "cache", 0%Q);
   (series2 cache_total_bytes n "cache", 0%Q);
   (series2 cache_usage_percent n "cache", 0%Q);
   (series1 cache_hits n, 0%Q);
   (series1 cache_misses n, 0%Q);
   (series1 cache_hit_ratio n, 0%Q)].

Definition zero_fill_writes (docker_stats : dict cache_stats) (i : Z) : writes :=
  if dict_mem (node_of_ordinal i) docker_stats then []
  else zero_writes (node_of_ordinal i).

Definition node_writes (item : string * cache_stats) : writes :=
  let '(n, s) := item in
  [(series1 cache_object_count n, inject_Z (object_count s));
   (series2 cache_used_bytes n "cache", inject_Z (cache_size s));
   (series2 cache_total_bytes n "cache", inject_Z node_ceiling);
   (series2 cache_usage_percent n "cache",
      percent_if (0 <? cache_size s)%Z (cache_size s) node_ceiling);
   (series1 cache_hits n, inject_Z (hits s));
   (series1 cache_misses n, inject_Z (misses s));
   (series1 cache_hit_ratio n,
      percent_if (0 <? hits s + misses s)%Z (hits s) (hits s + misses s))].

Definition disk_writes (item : string * disk_stat) : writes :=
  let '(d, s) := item in
  [(series2 cache_used_bytes "physical" d, inject_Z (used s));
   (series2 cache_total_bytes "physical" d, inject_Z (total s));
   (series2 cache_usage_percent "physical" d, percent s)].

Definition aggregate_writes (U T H M : Z) : writes :=
  [(series2 cache_used_bytes "all" "total", inject_Z U);
   (series2 cache_total_bytes "all" "total", inject_Z T);
   (series2 cache_usage_percent "all" "total", percent_if (0 <? T)%Z U T);
   (series1 cache_hits "all", inject_Z H);
   (series1 cache_misses "all", inject_Z M);
   (series1 cache_hit_ratio "all", percent_if (0 <? H + M)%Z H (H + M))].

Definition net_writes (item : string * net_stat) : writes :=
  let '(iface, s) := item in
  [(series1 network_rx_bytes iface, inject_Z (rx_bytes s));
   (series1 network_tx_bytes iface, inject_Z (tx_bytes s));
   (series1 network_rx_packets iface, inject_Z (rx_packets s));
   (series1 network_tx_packets iface, inject_Z (tx_packets s))].

(** The sum of one field over the records of a dictionary. *)
Definition sum_of {A : Type} (f : A → Z) (d : dict A) : Z :=
  foldr (λ item acc, f item.2 + acc) 0 d.

(** All the [set] calls of one successful [update_metrics]. *)
Definition cycle_writes (docker_stats : dict cache_stats)
    (disk_stats : dict disk_stat) (net_stats : dict net_stat) : writes :=
  flat_map (zero_fill_writes docker_stats) node_ordinals
  ++ flat_map node_writes docker_stats
  ++ flat_map disk_writes disk_stats
  ++ aggregate_writes (sum_of cache_size docker_stats) (sum_of total disk_stats)
       (sum_of hits docker_stats) (sum_of misses docker_stats)
  ++ flat_map net_writes net_stats.

(** The dictionaries the disk and network samplers return. *)
Definition disk_stats_of (w : world) : dict disk_stat :=
  map (λ m, (m.1, disk_record w m.2)) disk_mounts.
Definition net_stats_of (w : world) : dict net_stat :=
  map (λ i, (node_of_ordinal i, net_record w (container_of_ordinal i))) node_ordinals.

(** The name and the label keys of a gauge. *)
Definition signature (g : gauge) : string * list string :=
  (g_name g, g_labelnames g).

(** The dictionary the cache sampler returns when every discovered name
    carries the marker. *)
Definition docker_stats_of (w : world) : dict cache_stats :=
  foldl (λ d c, dict_set (node_label c) (cache_record w c) d) [] (containers w).

(** Node names start with [nginx-cache-]. *)
Definition is_node_name (n : string) : Prop := String.prefix "nginx-cache-" n = true.

(** Every command against [container] exits non-zero, except that the
    file-count pipeline may end normally printing 0 (its status is that
    of [wc -l]). *)
Definition unreachable (w : world) (container : string) : Prop :=
  ∀ c, target c = Some container →
    returncode (w c) ≠ 0%Z ∨
    ∃ d, c = FindCount container d ∧ int (PyStr.strip (stdout (w c))) = Ok 0%Z.

(** The seven cache series of a node, the six series of the aggregate
    record, and the first label value of a series. *)
Definition node_series (n : string) : list series := (zero_writes n).*1.
Definition aggregate_series : list series := (aggregate_writes 0 0 0 0).*1.
Definition head_label (k : series) : option string := head k.2.

(** The metric is one of the cache gauges, whose names start with
    [nginx_]. *)
Definition cache_metric (k : series) : Prop := String.prefix "nginx_" k.1 = true.

(** The metric catalogue as the specification words it: names and label
    keys. *)
Definition spec_catalogue : list (string * list string) :=
  [("cache_disk_used_bytes", ["node"; "disk"]);
   ("cache_disk_total_bytes", ["node"; "disk"]);
   ("cache_object_count", ["node"]);
   ("cache_disk_usage_percent", ["node"; "disk"]);
   ("cache_hits_total", ["node"]);
   ("cache_misses_total", ["node"]);
   ("cache_hit_ratio", ["node"]);
   ("network_interface_rx_bytes", ["interface"]);
   ("network_interface_tx_bytes", ["interface"]);
   ("network_interface_rx_packets", ["interface"]);
   ("network_interface_tx_packets", ["interface"])].

(** The catalogue entry with [nginx_] put before a name that starts with
    [cache_]. *)
Definition with_nginx_prefix (entry : string * list string) : string * list string :=
  if String.prefix "cache_" entry.1 then ("nginx_" +:+ entry.1, entry.2) else entry.

(** The gauge a series belongs to: same name, as many label values as the
    gauge has label names. *)
Definition series_of_gauge (k : series) (g : gauge) : Prop :=
  k.1 = g_name g ∧ length k.2 = length (g_labelnames g).

(** ** Example worlds *)

Definition tab : string := String (ascii_of_nat 9) EmptyString.

(** Two containers are running.  Node 1 has two slots: [du] succeeds on
    the first and exits non-zero on the second; its log has two hits and
    one miss; its interface line is complete.  Node 2 cannot be reached:
    every [docker exec] and [docker logs] against it exits non-zero, the
    [wc -l] at the end of the file-count pipeline still prints 0, and its
    interface line is cut after the ninth counter.  Only the first mount
    is readable. *)
Definition world_demo : world := λ c,
  match c with
  | DockerPs =>
      Completed 0 ("tc-nginx-nginx-cache-1-1" +:+ nl +:+ "tc-nginx-nginx-cache-2-1" +:+ nl)
  | LsDisks "tc-nginx-nginx-cache-1-1" =>
      Completed 0 ("/cache/disk1" +:+ nl +:+ "/cache/disk2" +:+ nl)
  | DuDisk "tc-nginx-nginx-cache-1-1" 1 =>
      Completed 0 ("1000" +:+ tab +:+ "/cache/disk1" +:+ nl)
  | FindCount "tc-nginx-nginx-cache-1-1" _ => Completed 0 ("50" +:+ nl)
  | LogsCacheStatus "tc-nginx-nginx-cache-1-1" =>
      Completed 0 ("GET /a CacheStatus=HIT" +:+ nl +:+ "GET /b CacheStatus=MISS" +:+ nl
                   +:+ "GET /a CacheStatus=HIT" +:+ nl)
  | FindCount _ _ => Completed 0 ("0" +:+ nl)
  | LsDisks _ | DuDisk _ _ | LogsCacheStatus _ => Completed 1 ""
  | Df "/mnt/disk1" => Completed 0 ("/dev/sda1 1000 250 750 25% /mnt/disk1" +:+ nl)
  | Df _ => Completed 0 ""
  | NetDev "tc-nginx-nginx-cache-1-1" =>
      Completed 0 ("  eth0: 100 2 0 0 0 0 0 0 300 4 0 0 0 0 0 0" +:+ nl)
  | NetDev "tc-nginx-nginx-cache-2-1" =>
      Completed 0 ("  eth0: 100 2 0 0 0 0 0 0 300" +:+ nl)
  | NetDev _ => Completed 1 ""
  end.

(** As [world_demo], but the log of node 1 shows a single miss. *)
Definition world_misses : world := λ c,
  match c with
  | LogsCacheStatus "tc-nginx-nginx-cache-1-1" =>
      Completed 0 ("GET /b CacheStatus=MISS" +:+ nl)
  | _ => world_demo c
  end.

(** As [world_demo], but [du] on the first slot of node 1 prints
    something that is not a number. *)
Definition world_garbled : world := λ c,
  match c with
  | DuDisk container disk =>
      if String.eqb container "tc-nginx-nginx-cache-1-1" && (disk =? 1)%Z
      then Completed 0 ("du: cannot" +:+ nl)
      else world_demo c
  | _ => world_demo c
  end.

(** The discovery command prints a name without the marker. *)
Definition world_stray : world := λ c,
  match c with
  | DockerPs => Completed 0 ("proxy" +:+ nl)
  | _ => world_demo c
  end.

(** One node using 30 bytes, disks totalling 100 bytes. *)
Definition world_thirty : world := λ c,
  match c with
  | DockerPs => Completed 0 ("tc-nginx-nginx-cache-1-1" +:+ nl)
  | LsDisks _ => Completed 0 ("/cache/disk1" +:+ nl)
  | DuDisk _ _ => Completed 0 ("30" +:+ tab +:+ "/cache/disk1" +:+ nl)
  | FindCount _ _ => Completed 0 ("3" +:+ nl)
  | LogsCacheStatus _ => Completed 1 ""
  | Df "/mnt/disk1" => Completed 0 ("/dev/sda1 60 10 50 17% /mnt/disk1" +:+ nl)
  | Df "/mnt/disk2" => Completed 0 ("/dev/sdb1 40 40 0 100% /mnt/disk2" +:+ nl)
  | Df _ => Completed 0 ""
  | NetDev _ => Completed 1 ""
  end.

(** The value last written to a series by a sequence of writes, if any. *)
Fixpoint last_write (k : series) (ws : writes) : option Q :=
  match ws with
  | [] => None
  | (k', v) :: ws' =>
      match last_write k ws' with
      | Some v' => Some v'
      | None => if decide (k' = k) then Some v else None
      end
  end.

(** Two replicas of node 1 are running; the second holds 7 bytes in 2
    files and its log shows one hit. *)
Definition world_replicas : world := λ c,
  match c with
  | DockerPs =>
      Completed 0 ("tc-nginx-nginx-cache-1-1" +:+ nl +:+ "tc-nginx-nginx-cache-1-2" +:+ nl)
  | LsDisks "tc-nginx-nginx-cache-1-2" => Completed 0 ("/cache/disk1" +:+ nl)
  | DuDisk "tc-nginx-nginx-cache-1-2" _ => Completed 0 ("7" +:+ tab +:+ "/cache/disk1" +:+ nl)
  | FindCount "tc-nginx-nginx-cache-1-2" _ => Completed 0 ("2" +:+ nl)
  | LogsCacheStatus "tc-nginx-nginx-cache-1-2" =>
      Completed 0 ("GET /a CacheStatus=HIT" +:+ nl)
  | _ => world_demo c
  end.

(** The slot listing of the only container fails; [du] and [find]
    answer for every slot asked: slot [d] holds [10 * d] bytes in [d]
    files. *)
Definition world_unlisted : world := λ c,
  match c with
  | DockerPs => Completed 0 ("tc-nginx-nginx-cache-1-1" +:+ nl)
  | LsDisks _ => Completed 2 ""
  | DuDisk _ d => Completed 0 (PyStr.of_Z (10 * d) +:+ tab +:+ "/cache/disk" +:+ nl)
  | FindCount _ d => Completed 0 (PyStr.of_Z d +:+ nl)
  | LogsCacheStatus _ => Completed 1 ""
  | Df _ => Completed 0 ""
  | NetDev _ => Completed 1 ""
  end.

(** A registry left by earlier cycles in which a fifth node was running. *)
Definition registry_with_fifth : registry :=
  apply_writes (node_writes ("nginx-cache-5", CacheStats 500 5 4 1)) ∅.

(** No cache container is running: the discovery command prints nothing. *)
Definition world_idle : world := λ c,
  match c with
  | DockerPs => Completed 1 ""
  | _ => world_demo c
  end.

(** The text is ASCII: every character is below 128.  On such text the
    string primitives of [PyStr] are those of Python. *)
Fixpoint ascii_text (s : string) : bool :=
  match s with
  | EmptyString => true
  | String c s' => (nat_of_ascii c <? 128)%nat && ascii_text s'
  end.

(** The number of lines that satisfy a test. *)
Definition count_lines (test : string → bool) (lines : list string) : Z :=
  Z.of_nat (length (List.filter test lines)).

(** As [world_demo], but the log of node 1 has one line that carries both
    markers, and one miss. *)
Definition world_both_markers : world := λ c,
  match c with
  | LogsCacheStatus "tc-nginx-nginx-cache-1-1" =>
      Completed 0 ("upstream CacheStatus=MISS, served CacheStatus=HIT" +:+ nl
                   +:+ "GET /b CacheStatus=MISS" +:+ nl)
  | _ => world_demo c
  end.

(** * Results *)

Local Open Scope Z_scope.

(** ** Exceptions and loops *)

Lemma is_Exception_all (e : exn) : is_Exception e = true.
Proof. by destruct e. Qed.

Lemma try_except_or_zero {A B : Type} (zero : A) (m : exc A) (f : A → B) :
  try_except (s ← m; Ok (f s)) (λ _, Ok (f zero)) = Ok (f (or_zero zero m)).
Proof. destruct m as [a|e]; simpl; [done|]. by rewrite is_Exception_all. Qed.

Lemma index_Some {A : Type} (l : list A) i a : l !! i = Some a → index l i = Ok a.
Proof. intros H. unfold index. by rewrite H. Qed.

Lemma for_each_cons {A St : Type} (step : St → A → exc St) x l acc :
  for_each step (x :: l) acc = (acc' ← step acc x; for_each step l acc').
Proof. done. Qed.

Lemma for_each_total {A St : Type} (step : St → A → exc St) (f : St → A → St) l acc :
  (∀ a x, step a x = Ok (f a x)) → for_each step l acc = Ok (foldl f acc l).
Proof.
  intros Hstep. revert acc.
  induction l as [|x l IH]; intros acc; simpl; [done|].
  by rewrite Hstep; simpl.
Qed.

Lemma for_each_ext {A St : Type} (f g : St → A → exc St) l acc :
  (∀ a x, x ∈ l → f a x = g a x) → for_each f l acc = for_each g l acc.
Proof.
  revert acc. induction l as [|x l IH]; intros acc Hfg; simpl; [done|].
  rewrite Hfg by left. destruct (g acc x) as [acc'|e]; simpl; [|done].
  apply IH. intros a0 y Hy. apply Hfg. by right.
Qed.

(** ** Dictionaries *)

Lemma dict_get_set_eq {V : Type} k (v : V) d : dict_get k (dict_set k v d) = Some v.
Proof.
  induction d as [|[k' v'] d IH]; simpl.
  - by rewrite String.eqb_refl.
  - destruct (String.eqb k k') eqn:E; simpl; rewrite ?E; [by rewrite String.eqb_refl|done].
Qed.

Lemma dict_get_set_ne {V : Type} k k' (v : V) d :
  k ≠ k' → dict_get k' (dict_set k v d) = dict_get k' d.
Proof.
  intros Hne. induction d as [|[k0 v0] d IH]; simpl.
  - destruct (String.eqb k' k) eqn:E; [|done].
    apply String.eqb_eq in E. congruence.
  - destruct (String.eqb k k0) eqn:E; simpl.
    + apply String.eqb_eq in E. subst k0.
      destruct (String.eqb k' k) eqn:E'; [|done].
      apply String.eqb_eq in E'. congruence.
    + by rewrite IH.
Qed.

Lemma dict_get_elem {V : Type} k (v : V) d : dict_get k d = Some v → (k, v) ∈ d.
Proof.
  induction d as [|[k' v'] d IH]; simpl; [done|].
  destruct (String.eqb k k') eqn:E.
  - apply String.eqb_eq in E. intros [= ->]. subst. left.
  - intros H. right. auto.
Qed.

Lemma dict_get_None {V : Type} k (d : dict V) : dict_get k d = None ↔ k ∉ d.*1.
Proof.
  induction d as [|[k' v'] d IH]; simpl.
  - split; [intros _; apply not_elem_of_nil|done].
  - destruct (String.eqb k k') eqn:E.
    + apply String.eqb_eq in E. subst. split; [done|]. intros H. destruct H. left.
    + apply String.eqb_neq in E. rewrite IH. rewrite not_elem_of_cons. intuition (subst; eauto; congruence).
Qed.

Lemma dict_set_keys {V : Type} k (v : V) d k' :
  k' ∈ (dict_set k v d).*1 ↔ k' = k ∨ k' ∈ d.*1.
Proof.
  induction d as [|[k0 v0] d IH]; simpl.
  - rewrite list_elem_of_singleton, elem_of_nil. intuition (subst; eauto; congruence).
  - destruct (String.eqb k k0) eqn:E; simpl.
    + apply String.eqb_eq in E. subst. rewrite !elem_of_cons. intuition (subst; eauto; congruence).
    + rewrite !elem_of_cons, IH. intuition (subst; eauto; congruence).
Qed.

Lemma dict_set_NoDup {V : Type} k (v : V) d : NoDup d.*1 → NoDup (dict_set k v d).*1.
Proof.
  induction d as [|[k0 v0] d IH]; simpl; intros Hnd.
  - apply NoDup_singleton.
  - apply NoDup_cons in Hnd as [Hk0 Hnd].
    destruct (String.eqb k k0) eqn:E; simpl.
    + apply String.eqb_eq in E. subst. by apply NoDup_cons.
    + apply String.eqb_neq in E. apply NoDup_cons. split; [|auto].
      rewrite dict_set_keys. intuition (subst; eauto; congruence).
Qed.

Lemma dict_get_Some_NoDup {V : Type} k (v : V) d :
  NoDup d.*1 → (k, v) ∈ d → dict_get k d = Some v.
Proof.
  induction d as [|[k' v'] d IH]; simpl; intros Hnd Hin.
  - by apply elem_of_nil in Hin.
  - apply NoDup_cons in Hnd as [Hk' Hnd].
    apply elem_of_cons in Hin as [[= <- <-]|Hin].
    + by rewrite String.eqb_refl.
    + destruct (String.eqb k k') eqn:E; [|auto].
      apply String.eqb_eq in E. subst. destruct Hk'.
      apply list_elem_of_fmap. by exists (k', v).
Qed.

(** ** Guarded percentages *)

Lemma true_div_nonzero a b : b ≠ 0 → true_div a b = Ok (inject_Z a / inject_Z b)%Q.
Proof. intros Hb. unfold true_div. by destruct (Z.eqb_spec b 0). Qed.

(** A percentage guarded on its denominator never divides by zero. *)
Lemma guarded_on_denominator a b :
  (if (0 <? b)%Z then q ← true_div a b; Ok (q * 100)%Q else Ok 0%Q)
  = Ok (percent_if (0 <? b)%Z a b).
Proof.
  unfold percent_if. destruct (Z.ltb_spec 0 b) as [Hb|Hb]; [|done].
  rewrite true_div_nonzero by lia. done.
Qed.

(** The per-node percentage is guarded on its numerator; its denominator
    is the non-zero constant. *)
Lemma guarded_on_numerator a :
  (if (0 <? a)%Z then q ← true_div a node_ceiling; Ok (q * 100)%Q else Ok 0%Q)
  = Ok (percent_if (0 <? a)%Z a node_ceiling).
Proof.
  unfold percent_if. destruct (0 <? a)%Z; [|done].
  rewrite true_div_nonzero by done. done.
Qed.

Lemma percent_if_true a b :
  0 < b → (percent_if (0 <? b)%Z a b == inject_Z a / inject_Z b * 100)%Q.
Proof.
  intros Hb. unfold percent_if. destruct (Z.ltb_spec 0 b); [reflexivity|lia].
Qed.

Lemma percent_if_false a b : b ≤ 0 → percent_if (0 <? b)%Z a b = 0%Q.
Proof.
  intros Hb. unfold percent_if. destruct (Z.ltb_spec 0 b); [lia|done].
Qed.

Lemma inject_Z_pos b : 0 < b → (0 < inject_Z b)%Q.
Proof. intros Hb. unfold Qlt, inject_Z. simpl. lia. Qed.

(** A ratio of a part to a positive whole, in percent, is between 0 and
    100, and is 0 only for an empty part. *)
Lemma ratio_bounds a b :
  0 ≤ a → a ≤ b → 0 < b →
  (0 <= inject_Z a / inject_Z b * 100)%Q ∧
  (inject_Z a / inject_Z b * 100 <= 100)%Q ∧
  ((inject_Z a / inject_Z b * 100 == 0)%Q ↔ a = 0).
Proof.
  intros Ha Hab Hb.
  unfold Qle, Qeq, Qdiv, Qmult, Qinv, inject_Z; simpl.
  destruct b as [|pb|pb]; try lia; simpl.
  repeat split; try nia.
Qed.

Lemma percent_if_ratio_bounds h m :
  0 ≤ h → 0 ≤ m →
  let v := percent_if (0 <? h + m)%Z h (h + m) in
  (0 <= v)%Q ∧ (v <= 100)%Q ∧ ((v == 0)%Q ↔ h = 0).
Proof.
  intros Hh Hm v. subst v. unfold percent_if.
  destruct (Z.ltb_spec 0 (h + m)) as [Hpos|Hz].
  - apply ratio_bounds; lia.
  - assert (h = 0) by lia. subst. repeat split; try done.
Qed.

(** ** The disk sampler *)

Lemma disk_mount_step_eq w d disk_name mount_path :
  disk_mount_step w d (disk_name, mount_path)
  = Ok (dict_set disk_name (disk_record w mount_path) d).
Proof.
  unfold disk_mount_step, disk_record.
  apply (try_except_or_zero zero_disk_stat (read_disk w mount_path)
           (λ s, dict_set disk_name s d)).
Qed.

Lemma get_disk_stats_eq w : get_disk_stats w = Ok (disk_stats_of w).
Proof.
  unfold get_disk_stats.
  rewrite (for_each_total _ (λ d m, dict_set m.1 (disk_record w m.2) d)).
  - reflexivity.
  - intros d [n p]. apply disk_mount_step_eq.
Qed.

Lemma disk_stats_of_get w disk_name mount_path :
  dict_get disk_name disk_mounts = Some mount_path →
  dict_get disk_name (disk_stats_of w) = Some (disk_record w mount_path).
Proof.
  unfold disk_stats_of, disk_mounts. simpl.
  repeat (destruct (String.eqb disk_name _); [by intros [= <-]|]).
  done.
Qed.

(** What the [try] block of the disk sampler computes, case by case. *)
Lemma read_disk_cases w mount_path :
  let result := w (Df mount_path) in
  let parts := PyStr.split_ws (PyStr.strip (stdout result)) in
  (returncode result ≠ 0 ∧ read_disk w mount_path = Ok zero_disk_stat) ∨
  (returncode result = 0 ∧ (length parts < 4)%nat
     ∧ read_disk w mount_path = Ok zero_disk_stat) ∨
  (returncode result = 0 ∧ (4 ≤ length parts)%nat
     ∧ (∃ i, i ∈ [1; 2; 3]%nat ∧ (p ← index parts i; int p) = Raise ValueError)
     ∧ read_disk w mount_path = Raise ValueError) ∨
  (returncode result = 0 ∧ (4 ≤ length parts)%nat
     ∧ ∃ t u a, (p ← index parts 1; int p) = Ok t
        ∧ (p ← index parts 2; int p) = Ok u
        ∧ (p ← index parts 3; int p) = Ok a
        ∧ read_disk w mount_path
          = Ok (DiskStat t u a (percent_if (0 <? t)%Z u t))).
Proof.
  intros result parts. unfold read_disk. fold result. fold parts.
  destruct (Z.eqb_spec (returncode result) 0) as [Hrc|Hrc]; [|by left].
  right. destruct (Nat.leb_spec 4 (length parts)) as [Hlen|Hlen]; [|by left].
  right.
  destruct parts as [|p0 [|p1 [|p2 [|p3 rest]]]]; simpl in Hlen; try lia.
  unfold index; simpl. unfold int.
  destruct (PyStr.parse_int p1) as [t|] eqn:E1; simpl;
    [|left; repeat split; try done; exists 1%nat;
      split; [set_solver|simpl; by rewrite E1]].
  destruct (PyStr.parse_int p2) as [u|] eqn:E2; simpl;
    [|left; repeat split; try done; exists 2%nat;
      split; [set_solver|simpl; by rewrite E2]].
  destruct (PyStr.parse_int p3) as [a|] eqn:E3; simpl;
    [|left; repeat split; try done; exists 3%nat;
      split; [set_solver|simpl; by rewrite E3]].
  right. repeat split; try done. exists t, u, a.
  repeat split. by rewrite guarded_on_denominator.
Qed.

(** C4.  The disk sampler always returns, with a record under every
    configured disk label.  A record holds the three parsed fields and
    the percentage [used / total * 100], which is 0 when the total is not
    positive; no division by zero is attempted.  A command that exits
    non-zero, an output of fewer than four fields and a field that is not
    a number all leave the all-zero record. *)
Theorem C4_disk_sampler_records (w : world) :
  ∃ disk_stats, get_disk_stats w = Ok disk_stats ∧
  ∀ disk_name mount_path, dict_get disk_name disk_mounts = Some mount_path →
    ∃ s, dict_get disk_name disk_stats = Some s ∧
      let result := w (Df mount_path) in
      let parts := PyStr.split_ws (PyStr.strip (stdout result)) in
      read_disk w mount_path ≠ Raise ZeroDivisionError ∧
      (0 < total s → (percent s == inject_Z (used s) / inject_Z (total s) * 100)%Q) ∧
      (total s ≤ 0 → percent s = 0%Q) ∧
      (∀ t u a, returncode result = 0 → (4 ≤ length parts)%nat →
         (p ← index parts 1; int p) = Ok t →
         (p ← index parts 2; int p) = Ok u →
         (p ← index parts 3; int p) = Ok a →
         total s = t ∧ used s = u ∧ available s = a) ∧
      (returncode result ≠ 0 → s = zero_disk_stat) ∧
      ((length parts < 4)%nat → s = zero_disk_stat) ∧
      (∀ i, i ∈ [1; 2; 3]%nat →
         (p ← index parts i; int p) = Raise ValueError → s = zero_disk_stat).
Proof.
  exists (disk_stats_of w). split; [apply get_disk_stats_eq|].
  intros disk_name mount_path Hmount.
  exists (disk_record w mount_path). split; [by apply disk_stats_of_get|].
  intros result parts. unfold disk_record.
  destruct (read_disk_cases w mount_path)
    as [[Hrc ->]|[(Hrc & Hlen & ->)|[(Hrc & Hlen & (i & Hi & Hraise) & ->)
       |(Hrc & Hlen & t & u & a & Ht & Hu & Ha & ->)]]]; simpl.
  - repeat split; try done; intros; unfold parts, result in *; try lia; done.
  - repeat split; try done; intros; unfold parts, result in *; lia.
  - repeat split; try done; intros; exfalso; unfold parts, result in *;
      repeat (apply elem_of_cons in Hi as [->|Hi]); try congruence;
      by apply elem_of_nil in Hi.
  - fold result parts in Ht, Hu, Ha.
    split; [done|]. split; [apply percent_if_true|].
    split; [apply percent_if_false|].
    split; [intros t' u' a' _ _ Ht' Hu' Ha'; rewrite Ht in Ht'; rewrite Hu in Hu';
            rewrite Ha in Ha'; by simplify_eq|].
    split; [done|]. split; [intros; unfold parts, result in *; lia|].
    intros i Hi Hraise.
    repeat (apply elem_of_cons in Hi as [->|Hi]); [congruence..|].
    by apply elem_of_nil in Hi.
Qed.

(** The spec's disk scenario on [world_demo]: total 1000 and used 250 give
    25 percent; an unreadable mount gives the all-zero record. *)
Lemma C4_disk_sampler_witness :
  ∃ disk_stats s1 s2, get_disk_stats world_demo = Ok disk_stats
    ∧ dict_get "disk1" disk_stats = Some s1 ∧ total s1 = 1000 ∧ used s1 = 250
    ∧ (percent s1 == 25)%Q
    ∧ dict_get "disk2" disk_stats = Some s2 ∧ s2 = zero_disk_stat.
Proof.
  destruct (C4_disk_sampler_records world_demo) as (ds & Hds & Hall).
  destruct (Hall "disk1" "/mnt/disk1" eq_refl) as (s1 & H1 & _ & Hp & _ & Hf & _).
  destruct (Hall "disk2" "/mnt/disk2" eq_refl) as (s2 & H2 & _ & _ & _ & _ & _ & Hshort & _).
  exists ds, s1, s2.
  destruct (Hf 1000 250 750) as (Ht & Hu & _); try reflexivity; [vm_compute; lia|].
  split; [done|]. split; [done|]. split; [done|]. split; [done|].
  split; [rewrite Hp by lia; rewrite Ht, Hu; reflexivity|].
  split; [done|]. apply Hshort. vm_compute. lia.
Defined.

(** ** The network sampler *)

Lemma net_node_step_eq w d node :
  net_node_step w d node
  = Ok (dict_set (node_of_ordinal node)
          (net_record w (container_of_ordinal node)) d).
Proof.
  unfold net_node_step, net_record.
  apply (try_except_or_zero zero_net_stat (read_net w (container_of_ordinal node))
           (λ s, dict_set (node_of_ordinal node) s d)).
Qed.

Lemma get_network_stats_eq w : get_network_stats w = Ok (net_stats_of w).
Proof.
  unfold get_network_stats.
  rewrite (for_each_total _
    (λ d i, dict_set (node_of_ordinal i) (net_record w (container_of_ordinal i)) d)).
  - reflexivity.
  - intros d i. apply net_node_step_eq.
Qed.

Lemma net_stats_of_get w node :
  1 ≤ node ≤ 4 →
  dict_get (node_of_ordinal node) (net_stats_of w)
  = Some (net_record w (container_of_ordinal node)).
Proof.
  intros Hnode.
  assert (node = 1 ∨ node = 2 ∨ node = 3 ∨ node = 4) as [->|[->|[->| ->]]] by lia;
    reflexivity.
Qed.

(** A counter section of exactly nine fields passes the length test and
    then fails: on a non-numeric field among the first, second and ninth,
    or else on the tenth field, which does not exist. *)
Lemma read_net_nine_fields w container rest :
  let result := w (NetDev container) in
  let line := PyStr.strip (stdout result) in
  returncode result = 0 → PyStr.truthy (stdout result) = true →
  PyStr.contains ":" line = true →
  PyStr.split_max ":" 1 line !! 1%nat = Some rest →
  length (PyStr.split_ws (PyStr.strip rest)) = 9%nat →
  ∃ e, read_net w container = Raise e ∧
    ((∀ i, i ∈ [0; 1; 8]%nat →
        ∃ n, (p ← index (PyStr.split_ws (PyStr.strip rest)) i; int p) = Ok n) →
     e = IndexError).
Proof.
  intros result line Hrc Htruthy Hcolon Hrest Hlen.
  unfold read_net. fold result. rewrite Hrc, Htruthy. simpl. fold line.
  rewrite Hcolon, (index_Some _ _ _ Hrest). simpl.
  destruct (PyStr.split_ws (PyStr.strip rest))
    as [|p0 [|p1 [|p2 [|p3 [|p4 [|p5 [|p6 [|p7 [|p8 [|p9 ?]]]]]]]]]];
    simpl in Hlen; try lia.
  simpl. unfold index. simpl. unfold int.
  destruct (PyStr.parse_int p0) eqn:E0; simpl.
  2:{ eexists; split; [done|]. intros Hall.
      destruct (Hall 0%nat) as [n Hn]; [set_solver|]. simpl in Hn.
      by rewrite E0 in Hn. }
  destruct (PyStr.parse_int p1) eqn:E1; simpl.
  2:{ eexists; split; [done|]. intros Hall.
      destruct (Hall 1%nat) as [n Hn]; [set_solver|]. simpl in Hn.
      by rewrite E1 in Hn. }
  destruct (PyStr.parse_int p8) eqn:E8; simpl.
  2:{ eexists; split; [done|]. intros Hall.
      destruct (Hall 8%nat) as [n Hn]; [set_solver|]. simpl in Hn.
      by rewrite E8 in Hn. }
  by eexists.
Qed.

(** C9.  For every ordinal 1..4 and whatever the interface-statistics
    read answers, the network sampler returns and holds a record for the
    node.  When the counter section has exactly nine fields the [try]
    block raises (an [IndexError] on field 9 once fields 0, 1 and 8 have
    been read as numbers), the handler catches it, and the record is the
    all-zero one. *)
Theorem C9_network_sampler_total (w : world) (node : Z) :
  1 ≤ node ≤ 4 →
  ∃ net_stats s,
    get_network_stats w = Ok net_stats ∧
    dict_get (node_of_ordinal node) net_stats = Some s ∧
    let container := container_of_ordinal node in
    let result := w (NetDev container) in
    let line := PyStr.strip (stdout result) in
    ∀ rest,
      returncode result = 0 → PyStr.truthy (stdout result) = true →
      PyStr.contains ":" line = true →
      PyStr.split_max ":" 1 line !! 1%nat = Some rest →
      length (PyStr.split_ws (PyStr.strip rest)) = 9%nat →
      (∃ e, read_net w container = Raise e ∧
         ((∀ i, i ∈ [0; 1; 8]%nat →
             ∃ n, (p ← index (PyStr.split_ws (PyStr.strip rest)) i; int p) = Ok n) →
          e = IndexError)) ∧
      s = zero_net_stat.
Proof.
  intros Hnode.
  exists (net_stats_of w), (net_record w (container_of_ordinal node)).
  split; [apply get_network_stats_eq|]. split; [by apply net_stats_of_get|].
  intros container result line rest Hrc Htruthy Hcolon Hrest Hlen.
  destruct (read_net_nine_fields w container rest Hrc Htruthy Hcolon Hrest Hlen)
    as (e & Hraise & He).
  split; [by exists e|]. unfold net_record. fold container. by rewrite Hraise.
Qed.

(** Node 2 of [world_demo] prints nine counters: its record is all zero. *)
Lemma C9_network_sampler_witness :
  1 ≤ 2 ≤ 4 ∧
  ∃ net_stats, get_network_stats world_demo = Ok net_stats ∧
    dict_get "nginx-cache-2" net_stats = Some zero_net_stat ∧
    read_net world_demo "tc-nginx-nginx-cache-2-1" = Raise IndexError.
Proof.
  split; [lia|].
  destruct (C9_network_sampler_total world_demo 2) as (ns & s & Hns & Hs & Hnine); [lia|].
  destruct (Hnine " 100 2 0 0 0 0 0 0 300") as [(e & He & Hidx) ->]; try reflexivity.
  exists ns. split; [done|]. split; [exact Hs|].
  change (read_net world_demo (container_of_ordinal 2) = Raise IndexError).
  rewrite He. f_equal. apply Hidx. intros i Hi.
  repeat (apply elem_of_cons in Hi as [->|Hi]); [by eexists..|].
  by apply elem_of_nil in Hi.
Defined.

(** ** Splitting strings *)

Lemma split_go_length sep limit skip cur s :
  (1 ≤ length (PyStr.split_go sep limit skip cur s))%nat.
Proof.
  revert limit skip cur.
  induction s as [|c s IH]; intros limit skip cur; cbn [PyStr.split_go]; [simpl; lia|].
  destruct skip; [|apply IH].
  destruct (PyStr.may_split limit && String.prefix sep (String c s));
    [cbn [length]; lia|apply IH].
Qed.

Lemma split_go_contains a sep cur s :
  PyStr.contains (String a sep) s = true →
  (2 ≤ length (PyStr.split_go (String a sep) None 0 cur s))%nat.
Proof.
  revert cur.
  induction s as [|c s IH]; intros cur; cbn [PyStr.split_go PyStr.contains]; [done|].
  destruct (String.prefix (String a sep) (String c s)) eqn:E; cbn [PyStr.may_split andb orb].
  - intros _. pose proof (split_go_length (String a sep) (PyStr.spend None)
      (String.length (String a sep) - 1) EmptyString s). cbn [length]. lia.
  - apply IH.
Qed.

Lemma split_last sep s : ∃ x, last (PyStr.split sep s) = Some x.
Proof.
  unfold PyStr.split.
  pose proof (split_go_length sep None 0 EmptyString s) as Hlen.
  destruct (PyStr.split_go sep None 0 EmptyString s) as [|x l] eqn:E using rev_ind;
    [simpl in Hlen; lia|].
  exists x. apply last_snoc.
Qed.

Lemma node_name_of_ok container :
  PyStr.contains "nginx-cache-" container = true →
  ∃ node_num, node_name_of container = Ok ("nginx-cache-" +:+ node_num).
Proof.
  intros Hc. unfold node_name_of, PyStr.split.
  pose proof (split_go_contains _ _ EmptyString _ Hc) as Hlen.
  destruct (PyStr.split_go "nginx-cache-" None 0 EmptyString container)
    as [|p0 [|rest l]]; simpl in Hlen; try lia.
  simpl.
  pose proof (split_go_length "-" None 0 EmptyString rest) as Hlen'.
  destruct (PyStr.split_go "-" None 0 EmptyString rest) as [|node_num l']; simpl in Hlen';
    [lia|].
  by exists node_num.
Qed.

Lemma prefix_app s t : String.prefix s (s +:+ t) = true.
Proof.
  induction s as [|a s IH].
  - by destruct t.
  - change (String a s +:+ t) with (String a (s +:+ t)). simpl.
    by destruct (ascii_dec a a).
Qed.

Lemma node_name_of_is_node_name container n :
  node_name_of container = Ok n → is_node_name n.
Proof.
  unfold node_name_of. destruct (index _ 1) as [rest|]; simpl; [|done].
  destruct (index _ 0) as [node_num|]; simpl; [|done].
  intros [= <-]. apply prefix_app.
Qed.

(** ** The cache sampler *)

(** One iteration of the discovery loop, for a name with the marker. *)
Lemma container_step_marked w node_name stats container :
  PyStr.contains "nginx-cache-" container = true →
  container_step w (node_name, stats) container
  = Ok (Some (node_label container),
        dict_set (node_label container) (cache_record w container) stats).
Proof.
  intros Hc. unfold container_step. rewrite Hc.
  destruct (node_name_of_ok _ Hc) as [num Hnum].
  unfold node_label, cache_record. rewrite Hnum. simpl.
  destruct (sample_container w container) as [s|e]; simpl; [done|].
  by rewrite is_Exception_all.
Qed.

Lemma containers_loop_marked w l node_name stats :
  forallb (PyStr.contains "nginx-cache-") l = true →
  ∃ node_name',
    for_each (container_step w) l (node_name, stats)
    = Ok (node_name',
          foldl (λ d c, dict_set (node_label c) (cache_record w c) d) stats l).
Proof.
  revert node_name stats. induction l as [|c l IH]; intros node_name stats Hall.
  - by eexists.
  - simpl in Hall. apply andb_prop in Hall as [Hc Hall].
    rewrite for_each_cons, container_step_marked by done. simpl. by apply IH.
Qed.

Lemma get_docker_cache_stats_ok w :
  discovery_ok w = true → get_docker_cache_stats w = Ok (docker_stats_of w).
Proof.
  intros Hok. unfold get_docker_cache_stats, docker_stats_of.
  destruct (containers_loop_marked w (containers w) None [] Hok) as [nn ->]. done.
Qed.

(** The sampler's dictionary has no repeated key, and all its keys are
    node names, whenever it is returned. *)
Lemma container_step_invariant w node_name stats container node_name' stats' :
  container_step w (node_name, stats) container = Ok (node_name', stats') →
  (∀ n, node_name = Some n → is_node_name n) →
  Forall is_node_name stats.*1 → NoDup stats.*1 →
  (∀ n, node_name' = Some n → is_node_name n)
  ∧ Forall is_node_name stats'.*1 ∧ NoDup stats'.*1.
Proof.
  intros Hstep Hnn Hkeys Hnd. unfold container_step in Hstep.
  assert (∃ nn, (if PyStr.contains "nginx-cache-" container
                 then n ← node_name_of container; Ok (Some n)
                 else Ok node_name) = Ok nn ∧ (∀ n, nn = Some n → is_node_name n)
                ∨ (if PyStr.contains "nginx-cache-" container
                 then n ← node_name_of container; Ok (Some n)
                 else Ok node_name) = Raise IndexError) as Hcase.
  { destruct (PyStr.contains "nginx-cache-" container).
    - destruct (node_name_of container) as [n|e] eqn:E; simpl.
      + exists (Some n). left. split; [done|]. intros ? [= <-].
        by eapply node_name_of_is_node_name.
      + exists None. right. unfold node_name_of in E.
        destruct (index _ 1); simpl in E; [|by simplify_eq].
        destruct (index _ 0); simpl in E; by simplify_eq.
    - exists node_name. by left. }
  destruct Hcase as [nn [[Heq Hnn']|Heq]]; rewrite Heq in Hstep; simpl in Hstep; [|done].
  destruct nn as [n|]; simpl in Hstep.
  - assert (∃ s, node_name' = Some n ∧ stats' = dict_set n s stats) as (s & -> & ->).
    { destruct (sample_container w container) as [s|e]; simpl in Hstep.
      - exists s. by simplify_eq.
      - rewrite is_Exception_all in Hstep. exists zero_cache_stats. by simplify_eq. }
    split; [done|]. split; [|by apply dict_set_NoDup].
    apply Forall_forall. intros k Hk. apply dict_set_keys in Hk as [->|Hk]; [by apply Hnn'|].
    by eapply Forall_forall in Hkeys.
  - destruct (sample_container w container) as [s|e]; simpl in Hstep; [done|].
    by rewrite is_Exception_all in Hstep.
Qed.

Lemma containers_loop_invariant w l node_name stats node_name' stats' :
  for_each (container_step w) l (node_name, stats) = Ok (node_name', stats') →
  (∀ n, node_name = Some n → is_node_name n) →
  Forall is_node_name stats.*1 → NoDup stats.*1 →
  Forall is_node_name stats'.*1 ∧ NoDup stats'.*1.
Proof.
  revert node_name stats. induction l as [|c l IH]; intros node_name stats.
  - intros [= <- <-]. done.
  - rewrite for_each_cons.
    destruct (container_step w (node_name, stats) c) as [[nn st]|e] eqn:E; simpl; [|done].
    intros Hrest Hnn Hkeys Hnd.
    destruct (container_step_invariant _ _ _ _ _ _ E Hnn Hkeys Hnd) as (? & ? & ?).
    by eapply IH.
Qed.

Lemma get_docker_cache_stats_keys w docker_stats :
  get_docker_cache_stats w = Ok docker_stats →
  Forall is_node_name docker_stats.*1 ∧ NoDup docker_stats.*1.
Proof.
  unfold get_docker_cache_stats.
  destruct (for_each _ _ _) as [[nn st]|e] eqn:E; simpl; [|done].
  intros [= <-]. eapply containers_loop_invariant; [exact E|done|constructor|constructor].
Qed.

(** The sampler can only fail on a discovered name without the marker,
    and then with [UnboundLocalError]. *)
Lemma container_step_raises w st container e :
  container_step w st container = Raise e → e = UnboundLocalError.
Proof.
  destruct st as [node_name stats]. unfold container_step.
  destruct (PyStr.contains "nginx-cache-" container) eqn:Hc.
  - destruct (node_name_of_ok _ Hc) as [num ->]. simpl.
    destruct (sample_container w container); simpl; [done|].
    by rewrite is_Exception_all.
  - simpl. destruct node_name as [n|]; simpl.
    + destruct (sample_container w container); simpl; [done|].
      by rewrite is_Exception_all.
    + destruct (sample_container w container); simpl.
      * by intros [= <-].
      * rewrite is_Exception_all. by intros [= <-].
Qed.

Lemma get_docker_cache_stats_raises w e :
  get_docker_cache_stats w = Raise e → e = UnboundLocalError.
Proof.
  unfold get_docker_cache_stats.
  generalize (None : option string, [] : dict cache_stats).
  induction (containers w) as [|c l IH]; intros st; [by destruct st|].
  rewrite for_each_cons.
  destruct (container_step w st c) as [st'|e'] eqn:E; simpl.
  - apply IH.
  - intros [= <-]. by eapply container_step_raises.
Qed.

(** The record filed under a node is the one of its container, when no
    other discovered container shares the node. *)
Lemma stats_fold_last w container l d :
  (∀ c', c' ∈ l → node_label c' = node_label container → c' = container) →
  dict_get (node_label container) d = Some (cache_record w container) ∨ container ∈ l →
  dict_get (node_label container)
    (foldl (λ d c, dict_set (node_label c) (cache_record w c) d) d l)
  = Some (cache_record w container).
Proof.
  revert d. induction l as [|c l IH]; intros d Huniq Hor; simpl.
  - destruct Hor as [H|H]; [done|by apply elem_of_nil in H].
  - apply IH; [intros c' Hc'; apply Huniq; by right|].
    destruct (decide (node_label c = node_label container)) as [Heq|Hne].
    + left. rewrite (Huniq c) by (done || left). apply dict_get_set_eq.
    + destruct Hor as [H|H].
      * left. by rewrite dict_get_set_ne.
      * apply elem_of_cons in H as [->|H]; [done|by right].
Qed.

(** Every discovered container leaves a record under its node. *)
Lemma stats_fold_covers w container l d :
  is_Some (dict_get (node_label container) d) ∨ container ∈ l →
  is_Some (dict_get (node_label container)
    (foldl (λ d c, dict_set (node_label c) (cache_record w c) d) d l)).
Proof.
  revert d. induction l as [|c l IH]; intros d Hor; simpl.
  - destruct Hor as [H|H]; [done|by apply elem_of_nil in H].
  - apply IH.
    destruct (decide (node_label c = node_label container)) as [Heq|Hne].
    + left. rewrite Heq, dict_get_set_eq. by eexists.
    + destruct Hor as [H|H].
      * left. by rewrite dict_get_set_ne.
      * apply elem_of_cons in H as [->|H]; [done|by right].
Qed.

(** The sample of a container depends only on the commands run against
    it. *)
Lemma sample_container_ext w w' container :
  (∀ c, target c = Some container → w' c = w c) →
  sample_container w' container = sample_container w container.
Proof.
  intros Hsame. unfold sample_container, detect_disks.
  rewrite (Hsame (LsDisks container)) by done.
  rewrite (Hsame (LogsCacheStatus container)) by done.
  assert (∀ l acc, for_each (disk_step w' container) l acc
                   = for_each (disk_step w container) l acc) as Hloop.
  { intros l acc. apply for_each_ext. intros [a b] disk _. unfold disk_step.
    rewrite (Hsame (DuDisk container disk)) by done.
    by rewrite (Hsame (FindCount container disk)) by done. }
  destruct (if (returncode (w (LsDisks container)) =? 0)
               && PyStr.truthy (PyStr.strip (stdout (w (LsDisks container))))
            then _ else _) as [disks|e]; simpl; [|done].
  by rewrite Hloop.
Qed.

(** A failure confined to one container leaves the records of all other
    nodes as they were. *)
Lemma stats_fold_same_outside w w' container l d d' n :
  same_outside container w w' →
  n ≠ node_label container →
  dict_get n d' = dict_get n d →
  dict_get n (foldl (λ d c, dict_set (node_label c) (cache_record w' c) d) d' l)
  = dict_get n (foldl (λ d c, dict_set (node_label c) (cache_record w c) d) d l).
Proof.
  intros Hsame Hn. revert d d'. induction l as [|c l IH]; intros d d' Hd; simpl; [done|].
  apply IH.
  destruct (decide (node_label c = n)) as [Heq|Hne].
  - subst n. rewrite !dict_get_set_eq. f_equal. unfold cache_record. f_equal.
    apply sample_container_ext. intros c0 Hc0. apply Hsame.
    rewrite Hc0. intros [= <-]. done.
  - by rewrite !dict_get_set_ne.
Qed.

(** A container none of whose commands succeeds is sampled as all zero. *)
Lemma disk_step_unreachable w container acc disk :
  unreachable w container → disk_step w container acc disk = Ok acc.
Proof.
  intros Hun. destruct acc as [cs oc]. unfold disk_step.
  destruct (Hun (DuDisk container disk) eq_refl) as [Hrc|(d & Hd & _)]; [|done].
  destruct (Z.eqb_spec (returncode (w (DuDisk container disk))) 0) as [|_]; [done|].
  simpl.
  destruct (Hun (FindCount container disk) eq_refl) as [Hrc'|(d & Hd & Hint)].
  - destruct (Z.eqb_spec (returncode (w (FindCount container disk))) 0) as [|_]; [done|].
    done.
  - destruct (returncode (w (FindCount container disk)) =? 0); [|done].
    rewrite Hint. simpl. by rewrite Z.add_0_r.
Qed.

Lemma sample_container_unreachable w container :
  unreachable w container → sample_container w container = Ok zero_cache_stats.
Proof.
  intros Hun. unfold sample_container, detect_disks.
  destruct (Hun (LsDisks container) eq_refl) as [Hrc|(d & Hd & _)]; [|done].
  destruct (Z.eqb_spec (returncode (w (LsDisks container))) 0) as [|_]; [done|].
  assert (∀ l acc, for_each (disk_step w container) l acc = Ok acc) as Hloop.
  { induction l as [|disk l IH]; intros acc; [done|].
    rewrite for_each_cons, disk_step_unreachable by done. apply IH. }
  cbn -[for_each]. rewrite Hloop. cbn.
  destruct (Hun (LogsCacheStatus container) eq_refl) as [Hrc'|(d & Hd & _)]; [|done].
  by destruct (Z.eqb_spec (returncode (w (LogsCacheStatus container))) 0) as [|_].
Qed.

(** ** Commands on the registry *)

Lemma upd_bind_done {A B : Type} (m : upd A) (f : A → upd B) reg a reg' :
  m reg = Done a reg' → (m ≫= f) reg = f a reg'.
Proof. intros H. unfold mbind, upd_bind. by rewrite H. Qed.

Lemma lift_done {A : Type} (m : exc A) a reg : m = Ok a → lift m reg = Done a reg.
Proof. by intros ->. Qed.

Lemma labels_set g kwargs k v reg :
  child g kwargs = Ok k →
  (c ← labels g kwargs; set c v) reg = Done () (<[k := v]> reg).
Proof.
  intros Hk. unfold mbind, upd_bind, labels, set. rewrite Hk.
  destruct (reg !! k); [done|]. by rewrite insert_insert_eq.
Qed.

Lemma labels_lift_set g kwargs k (m : exc Q) v reg :
  child g kwargs = Ok k → m = Ok v →
  (c ← labels g kwargs; v ← lift m; set c v) reg = Done () (<[k := v]> reg).
Proof.
  intros Hk ->. unfold mbind, upd_bind, labels, set, lift. rewrite Hk.
  destruct (reg !! k); [done|]. by rewrite insert_insert_eq.
Qed.

Lemma child_one g l v : g_labelnames g = [l] → child g [(l, v)] = Ok (series1 g v).
Proof.
  intros Hg. unfold child. rewrite Hg. simpl. by rewrite String.eqb_refl.
Qed.

Lemma child_node_disk g n d :
  g_labelnames g = ["node"; "disk"] →
  child g [("node", n); ("disk", d)] = Ok (series2 g n d).
Proof. intros Hg. unfold child. by rewrite Hg. Qed.

Lemma apply_writes_app ws1 ws2 reg :
  apply_writes (ws1 ++ ws2) reg = apply_writes ws2 (apply_writes ws1 reg).
Proof.
  revert reg. induction ws1 as [|[k v] ws1 IH]; intros reg; simpl; [done|apply IH].
Qed.

(** A loop whose body makes the writes [g x] makes them for every element,
    in order. *)
Lemma upd_for_writes {A St : Type} (step : St → A → upd St) (f : St → A → St)
    (g : A → writes) l acc reg :
  (∀ acc x reg, step acc x reg = Done (f acc x) (apply_writes (g x) reg)) →
  upd_for step l acc reg = Done (foldl f acc l) (apply_writes (flat_map g l) reg).
Proof.
  intros Hstep. revert acc reg. induction l as [|x l IH]; intros acc reg; [done|].
  cbn [upd_for flat_map foldl].
  rewrite (upd_bind_done _ _ _ _ _ (Hstep acc x reg)), apply_writes_app. apply IH.
Qed.

Ltac run_set :=
  first
    [ erewrite upd_bind_done by (apply labels_set; (apply child_one || apply child_node_disk); reflexivity)
    | erewrite upd_bind_done by (eapply labels_lift_set; [(apply child_one || apply child_node_disk); reflexivity|eassumption]) ].

Lemma zero_fill_step_writes docker_stats i reg :
  zero_fill_step docker_stats () i reg
  = Done () (apply_writes (zero_fill_writes docker_stats i) reg).
Proof.
  unfold zero_fill_step, zero_fill_writes.
  destruct (dict_mem (node_of_ordinal i) docker_stats); [done|].
  cbn [negb]. do 6 run_set.
  by rewrite (labels_set _ _ (series1 cache_hit_ratio (node_of_ordinal i))).
Qed.

Lemma node_step_writes acc item reg :
  node_step acc item reg
  = Done (acc.1.1.1 + cache_size item.2, acc.1.1.2 + object_count item.2,
          acc.1.2 + hits item.2, acc.2 + misses item.2)
      (apply_writes (node_writes item) reg).
Proof.
  destruct acc as [[[a b] c] d], item as [n s]. unfold node_step. cbv zeta.
  destruct (split_last "-" n) as [node_num Hlast].
  erewrite upd_bind_done by (apply lift_done; unfold last_item; by rewrite Hlast).
  pose proof (guarded_on_numerator (cache_size s)) as Hpct.
  pose proof (guarded_on_denominator (hits s) (hits s + misses s)) as Hratio.
  do 6 run_set.
  erewrite upd_bind_done by (apply lift_done; exact Hratio).
  run_set. done.
Qed.

Lemma disk_step_publish_writes acc item reg :
  disk_step_publish acc item reg
  = Done (acc.1 + total item.2, acc.2 + used item.2)
      (apply_writes (disk_writes item) reg).
Proof.
  destruct acc as [a b], item as [d s]. unfold disk_step_publish.
  do 3 run_set. done.
Qed.

Lemma net_step_publish_writes item reg :
  net_step_publish () item reg = Done () (apply_writes (net_writes item) reg).
Proof.
  destruct item as [iface s]. unfold net_step_publish.
  do 3 run_set.
  by rewrite (labels_set _ _ (series1 network_tx_packets iface)).
Qed.

(** ** One cycle *)

Lemma node_totals docker_stats a b c d :
  foldl (λ (acc : Z * Z * Z * Z) (item : string * cache_stats),
           (acc.1.1.1 + cache_size item.2, acc.1.1.2 + object_count item.2,
            acc.1.2 + hits item.2, acc.2 + misses item.2))
    (a, b, c, d) docker_stats
  = (a + sum_of cache_size docker_stats, b + sum_of object_count docker_stats,
     c + sum_of hits docker_stats, d + sum_of misses docker_stats).
Proof.
  revert a b c d. induction docker_stats as [|x l IH]; intros a b c d; simpl.
  - by rewrite !Z.add_0_r.
  - rewrite IH. unfold sum_of. simpl. by rewrite !Z.add_assoc.
Qed.

Lemma disk_totals disk_stats a b :
  foldl (λ (acc : Z * Z) (item : string * disk_stat),
           (acc.1 + total item.2, acc.2 + used item.2))
    (a, b) disk_stats
  = (a + sum_of total disk_stats, b + sum_of used disk_stats).
Proof.
  revert a b. induction disk_stats as [|x l IH]; intros a b; simpl.
  - by rewrite !Z.add_0_r.
  - rewrite IH. unfold sum_of. simpl. by rewrite !Z.add_assoc.
Qed.

(** A cycle whose cache sampler returns makes exactly the writes of
    [cycle_writes] and ends normally. *)
Lemma update_metrics_done w docker_stats reg :
  get_docker_cache_stats w = Ok docker_stats →
  update_metrics w reg
  = Done () (apply_writes
               (cycle_writes docker_stats (disk_stats_of w) (net_stats_of w)) reg).
Proof.
  intros Hds. unfold update_metrics, cycle_writes.
  erewrite upd_bind_done by (apply lift_done; exact Hds).
  erewrite upd_bind_done
    by (apply (upd_for_writes _ (λ _ _, ()) (zero_fill_writes docker_stats));
        intros [] ? ?; apply zero_fill_step_writes).
  erewrite upd_bind_done by (apply upd_for_writes; apply node_step_writes).
  rewrite node_totals. cbn [Z.add].
  erewrite upd_bind_done by (apply lift_done; apply get_disk_stats_eq).
  erewrite upd_bind_done by (apply upd_for_writes; apply disk_step_publish_writes).
  rewrite disk_totals. cbn [Z.add].
  pose proof (guarded_on_denominator (sum_of cache_size docker_stats)
                (sum_of total (disk_stats_of w))) as Hpct.
  pose proof (guarded_on_denominator (sum_of hits docker_stats)
                (sum_of hits docker_stats + sum_of misses docker_stats)) as Hratio.
  do 5 run_set.
  erewrite upd_bind_done by (apply lift_done; exact Hratio).
  run_set.
  erewrite upd_bind_done by (apply lift_done; apply get_network_stats_eq).
  rewrite (upd_for_writes _ (λ _ _, ()) net_writes)
    by (intros [] ? ?; apply net_step_publish_writes).
  by rewrite !apply_writes_app.
Qed.

(** A cycle whose cache sampler raises ends there, before any write. *)
Lemma update_metrics_failed w e reg :
  get_docker_cache_stats w = Raise e → update_metrics w reg = Failed e reg.
Proof.
  intros Hds. unfold update_metrics, mbind, upd_bind, lift. by rewrite Hds.
Qed.

(** ** Reading the registry after a sequence of writes *)

Lemma lookup_apply_writes_notin ws reg k :
  k ∉ ws.*1 → apply_writes ws reg !! k = reg !! k.
Proof.
  revert reg. induction ws as [|[k' v'] ws IH]; intros reg Hk; simpl; [done|].
  simpl in Hk. apply not_elem_of_cons in Hk as [Hne Hk].
  rewrite IH by done. by apply lookup_insert_ne.
Qed.

(** A series written with one value only holds that value afterwards. *)
Lemma lookup_apply_writes_unique ws reg k v :
  (k, v) ∈ ws → (∀ v', (k, v') ∈ ws → v' = v) →
  apply_writes ws reg !! k = Some v.
Proof.
  revert reg. induction ws as [|[k' v'] ws IH]; intros reg Hin Huniq; simpl.
  - by apply elem_of_nil in Hin.
  - destruct (decide (k ∈ ws.*1)) as [Hlater|Hlater].
    + apply list_elem_of_fmap in Hlater as [[k0 v0] [Hk0 Hin0]]. simpl in Hk0. subst k0.
      apply IH; [|intros v'' H''; apply Huniq; by right].
      rewrite <- (Huniq v0) by (by right). done.
    + rewrite lookup_apply_writes_notin by done.
      apply elem_of_cons in Hin as [[= <- <-]|Hin].
      * apply lookup_insert_eq.
      * destruct Hlater. apply list_elem_of_fmap. by exists (k, v).
Qed.

Lemma elem_of_flat_map {A B : Type} (f : A → list B) l y :
  y ∈ flat_map f l ↔ ∃ x, x ∈ l ∧ y ∈ f x.
Proof.
  rewrite list_elem_of_In, in_flat_map.
  split; intros (x & Hx & Hy); exists x; split; by apply list_elem_of_In.
Qed.

Lemma writes_functional (ws : writes) k v v' :
  NoDup ws.*1.*1 → (k, v) ∈ ws → (k, v') ∈ ws → v = v'.
Proof.
  intros Hnd%NoDup_fmap_1.
  induction ws as [|[k0 v0] ws IH]; intros Hv Hv'; [by apply elem_of_nil in Hv|].
  simpl in Hnd. apply NoDup_cons in Hnd as [Hk0 Hnd].
  apply elem_of_cons in Hv as [Heq|Hv]; apply elem_of_cons in Hv' as [Heq'|Hv'];
    simplify_eq.
  - done.
  - destruct Hk0. apply list_elem_of_fmap. by exists (k0, v').
  - destruct Hk0. apply list_elem_of_fmap. by exists (k0, v).
  - by apply IH.
Qed.

(** ** Which writes of a cycle address which series *)

Lemma node_writes_keys n s : (node_writes (n, s)).*1 = node_series n.
Proof. done. Qed.

Lemma aggregate_writes_keys U T H M : (aggregate_writes U T H M).*1 = aggregate_series.
Proof. done. Qed.

Lemma node_series_head n k : k ∈ node_series n → head_label k = Some n ∧ cache_metric k.
Proof.
  intros Hk. unfold node_series, zero_writes in Hk. simpl in Hk.
  repeat (apply elem_of_cons in Hk as [->|Hk]); [by split..|].
  by apply elem_of_nil in Hk.
Qed.

Lemma aggregate_series_head k :
  k ∈ aggregate_series → head_label k = Some "all" ∧ cache_metric k.
Proof.
  intros Hk. unfold aggregate_series, aggregate_writes in Hk. simpl in Hk.
  repeat (apply elem_of_cons in Hk as [->|Hk]); [by split..|].
  by apply elem_of_nil in Hk.
Qed.

Lemma zero_writes_value n k v : (k, v) ∈ zero_writes n → v = 0%Q ∧ k ∈ node_series n.
Proof.
  intros Hk. split.
  - unfold zero_writes in Hk.
    repeat (apply elem_of_cons in Hk as [[= -> ->]|Hk]); [done..|].
    by apply elem_of_nil in Hk.
  - unfold node_series. apply list_elem_of_fmap. by exists (k, v).
Qed.

Lemma disk_writes_head d s k v : (k, v) ∈ disk_writes (d, s) → head_label k = Some "physical".
Proof.
  intros Hk. unfold disk_writes in Hk.
  repeat (apply elem_of_cons in Hk as [[= -> ->]|Hk]); [done..|].
  by apply elem_of_nil in Hk.
Qed.

Lemma net_writes_metric iface s k v : (k, v) ∈ net_writes (iface, s) → ¬ cache_metric k.
Proof.
  intros Hk. unfold net_writes in Hk.
  repeat (apply elem_of_cons in Hk as [[= -> ->]|Hk]); [done..|].
  by apply elem_of_nil in Hk.
Qed.

Lemma is_node_name_ordinal i : is_node_name (node_of_ordinal i).
Proof. apply prefix_app. Qed.

Lemma node_writes_functional n s k v v' :
  (k, v) ∈ node_writes (n, s) → (k, v') ∈ node_writes (n, s) → v = v'.
Proof.
  apply writes_functional. simpl.
  apply (bool_decide_unpack (NoDup _)). by vm_compute.
Qed.

Lemma aggregate_writes_functional U T H M k v v' :
  (k, v) ∈ aggregate_writes U T H M → (k, v') ∈ aggregate_writes U T H M → v = v'.
Proof.
  intros Hv Hv'. unfold aggregate_writes in *.
  repeat (apply elem_of_cons in Hv as [[= -> ->]|Hv]);
    try (by apply elem_of_nil in Hv);
    repeat (apply elem_of_cons in Hv' as [Heq|Hv']);
    try (by apply elem_of_nil in Hv'); by simplify_eq.
Qed.

Lemma not_node_name_physical : ¬ is_node_name "physical".
Proof. unfold is_node_name. by vm_compute. Qed.

Lemma not_node_name_all : ¬ is_node_name "all".
Proof. unfold is_node_name. by vm_compute. Qed.

(** The writes of a cycle to a cache series of the node [n]: those of the
    node's record if it has one, else the zero of the zero-filling loop. *)
Lemma cycle_writes_node_key docker_stats disk_stats net_stats n k v :
  is_node_name n → k ∈ node_series n →
  (k, v) ∈ cycle_writes docker_stats disk_stats net_stats →
  (∃ s, (n, s) ∈ docker_stats ∧ (k, v) ∈ node_writes (n, s)) ∨
  (dict_get n docker_stats = None
   ∧ (∃ i, i ∈ node_ordinals ∧ n = node_of_ordinal i) ∧ v = 0%Q).
Proof.
  intros Hname Hk Hin. destruct (node_series_head _ _ Hk) as [Hhead Hmetric].
  unfold cycle_writes in Hin. rewrite !elem_of_app, !elem_of_flat_map in Hin.
  destruct Hin as [(i & Hi & Hin)|[([n' s] & Hitem & Hin)|[([d s] & _ & Hin)
                  |[Hin|([iface s] & _ & Hin)]]]].
  - right. unfold zero_fill_writes, dict_mem in Hin.
    destruct (dict_get (node_of_ordinal i) docker_stats) eqn:E;
      [by apply elem_of_nil in Hin|].
    apply zero_writes_value in Hin as [-> Hk'].
    apply node_series_head in Hk' as [Hhead' _].
    assert (n = node_of_ordinal i) as -> by congruence.
    split; [done|]. split; [by exists i|done].
  - left. assert (k ∈ node_series n') as Hk'.
    { rewrite <- (node_writes_keys n' s). apply list_elem_of_fmap. by exists (k, v). }
    apply node_series_head in Hk' as [Hhead' _].
    assert (n' = n) as -> by congruence. by exists s.
  - apply disk_writes_head in Hin.
    assert (n = "physical") as -> by congruence. by destruct not_node_name_physical.
  - assert (k ∈ aggregate_series) as Hk'.
    { rewrite <- (aggregate_writes_keys (sum_of cache_size docker_stats)
        (sum_of total disk_stats) (sum_of hits docker_stats) (sum_of misses docker_stats)).
      apply list_elem_of_fmap. by exists (k, v). }
    apply aggregate_series_head in Hk' as [Hhead' _].
    assert (n = "all") as -> by congruence. by destruct not_node_name_all.
  - by apply net_writes_metric in Hin.
Qed.

(** The series of a node that has a record hold the values of that
    record. *)
Lemma cycle_lookup_present docker_stats disk_stats net_stats reg n s k v :
  NoDup docker_stats.*1 → Forall is_node_name docker_stats.*1 →
  dict_get n docker_stats = Some s → (k, v) ∈ node_writes (n, s) →
  apply_writes (cycle_writes docker_stats disk_stats net_stats) reg !! k = Some v.
Proof.
  intros Hnd Hnames Hget Hkv.
  pose proof (dict_get_elem _ _ _ Hget) as Hitem.
  assert (is_node_name n) as Hname.
  { eapply Forall_forall in Hnames; [done|]. apply list_elem_of_fmap. by exists (n, s). }
  assert (k ∈ node_series n) as Hk.
  { rewrite <- (node_writes_keys n s). apply list_elem_of_fmap. by exists (k, v). }
  apply lookup_apply_writes_unique.
  - unfold cycle_writes. rewrite !elem_of_app, !elem_of_flat_map.
    right; left. by exists (n, s).
  - intros v' Hv'.
    destruct (cycle_writes_node_key _ _ _ _ _ _ Hname Hk Hv')
      as [(s' & Hitem' & Hv'')|(Hnone & _)]; [|congruence].
    apply (dict_get_Some_NoDup _ _ _ Hnd) in Hitem'.
    assert (s' = s) as -> by congruence.
    by eapply node_writes_functional.
Qed.

(** The series of a configured node without a record hold 0. *)
Lemma cycle_lookup_absent docker_stats disk_stats net_stats reg i k :
  i ∈ node_ordinals → dict_get (node_of_ordinal i) docker_stats = None →
  k ∈ node_series (node_of_ordinal i) →
  apply_writes (cycle_writes docker_stats disk_stats net_stats) reg !! k = Some 0%Q.
Proof.
  intros Hi Hnone Hk.
  unfold node_series in Hk. apply list_elem_of_fmap in Hk as [[k' v] [Heq Hkv]].
  simpl in Heq. subst k'.
  pose proof (zero_writes_value _ _ _ Hkv) as [-> Hk].
  apply lookup_apply_writes_unique.
  - unfold cycle_writes. rewrite !elem_of_app, !elem_of_flat_map.
    left. exists i. split; [done|]. unfold zero_fill_writes, dict_mem. by rewrite Hnone.
  - intros v' Hv'.
    destruct (cycle_writes_node_key _ _ _ _ _ _ (is_node_name_ordinal i) Hk Hv')
      as [(s' & Hitem' & _)|(_ & _ & ->)]; [|done].
    apply dict_get_None in Hnone. destruct Hnone.
    apply list_elem_of_fmap. by exists (node_of_ordinal i, s').
Qed.

(** The cache series of any other node name are left as they were. *)
Lemma cycle_lookup_untouched docker_stats disk_stats net_stats reg n k :
  is_node_name n → dict_get n docker_stats = None →
  (∀ i, i ∈ node_ordinals → n ≠ node_of_ordinal i) →
  k ∈ node_series n →
  apply_writes (cycle_writes docker_stats disk_stats net_stats) reg !! k = reg !! k.
Proof.
  intros Hname Hnone Hord Hk. apply lookup_apply_writes_notin.
  intros Hin. apply list_elem_of_fmap in Hin as [[k' v] [Heq Hkv]]. simpl in Heq. subst k'.
  destruct (cycle_writes_node_key _ _ _ _ _ _ Hname Hk Hkv)
    as [(s' & Hitem' & _)|(_ & (i & Hi & ->) & _)].
  - apply dict_get_None in Hnone. destruct Hnone.
    apply list_elem_of_fmap. by exists (n, s').
  - by destruct (Hord i).
Qed.

(** The series of the aggregate record hold the values computed from the
    sums. *)
Lemma cycle_lookup_aggregate docker_stats disk_stats net_stats reg k v :
  Forall is_node_name docker_stats.*1 →
  (k, v) ∈ aggregate_writes (sum_of cache_size docker_stats) (sum_of total disk_stats)
             (sum_of hits docker_stats) (sum_of misses docker_stats) →
  apply_writes (cycle_writes docker_stats disk_stats net_stats) reg !! k = Some v.
Proof.
  intros Hnames Hkv.
  assert (k ∈ aggregate_series) as Hk.
  { rewrite <- (aggregate_writes_keys (sum_of cache_size docker_stats)
      (sum_of total disk_stats) (sum_of hits docker_stats) (sum_of misses docker_stats)).
    apply list_elem_of_fmap. by exists (k, v). }
  destruct (aggregate_series_head _ Hk) as [Hhead Hmetric].
  apply lookup_apply_writes_unique.
  - unfold cycle_writes. rewrite !elem_of_app. by right; right; right; left.
  - intros v' Hin.
    unfold cycle_writes in Hin. rewrite !elem_of_app, !elem_of_flat_map in Hin.
    destruct Hin as [(i & Hi & Hin)|[([n' s] & Hitem & Hin)|[([d s] & _ & Hin)
                    |[Hin|([iface s] & _ & Hin)]]]].
    + unfold zero_fill_writes in Hin. destruct (dict_mem _ _);
        [by apply elem_of_nil in Hin|].
      apply zero_writes_value in Hin as [_ Hk'].
      apply node_series_head in Hk' as [Hhead' _].
      destruct not_node_name_all.
      replace "all" with (node_of_ordinal i) by congruence. apply is_node_name_ordinal.
    + assert (k ∈ node_series n') as Hk'.
      { rewrite <- (node_writes_keys n' s). apply list_elem_of_fmap. by exists (k, v'). }
      apply node_series_head in Hk' as [Hhead' _].
      destruct not_node_name_all. replace "all" with n' by congruence.
      eapply Forall_forall in Hnames; [done|]. apply list_elem_of_fmap. by exists (n', s).
    + apply disk_writes_head in Hin. congruence.
    + by eapply aggregate_writes_functional.
    + by apply net_writes_metric in Hin.
Qed.

Lemma ordinal_cases i : 1 ≤ i ≤ 4 → i ∈ node_ordinals.
Proof.
  intros Hi. unfold node_ordinals. rewrite !elem_of_cons. lia.
Qed.

(** ** The claims *)

(** C1.  After a cycle (the discovery command having listed names with
    the marker only), for every ordinal 1..4 each of the seven per-node
    cache series (object count, used bytes, total bytes, usage percent,
    hits, misses, hit ratio) exists with a value: the values computed
    from the node's record when the cache sampler returned one, and 0 for
    all seven when it returned none. *)
Theorem C1_configured_nodes_always_have_series (w : world) (reg : registry) (i : Z) :
  discovery_ok w = true → 1 ≤ i ≤ 4 →
  let n := node_of_ordinal i in
  ∃ docker_stats reg',
    get_docker_cache_stats w = Ok docker_stats ∧
    update_metrics w reg = Done () reg' ∧
    node_series n
      = [series1 cache_object_count n; series2 cache_used_bytes n "cache";
         series2 cache_total_bytes n "cache"; series2 cache_usage_percent n "cache";
         series1 cache_hits n; series1 cache_misses n; series1 cache_hit_ratio n] ∧
    (∀ k, k ∈ node_series n → is_Some (reg' !! k)) ∧
    (dict_get n docker_stats = None → ∀ k, k ∈ node_series n → reg' !! k = Some 0%Q) ∧
    (∀ s, dict_get n docker_stats = Some s →
       ∀ k v, (k, v) ∈ node_writes (n, s) → reg' !! k = Some v).
Proof.
  intros Hok Hi n.
  pose proof (get_docker_cache_stats_ok w Hok) as Hds.
  destruct (get_docker_cache_stats_keys _ _ Hds) as [Hnames Hnd].
  exists (docker_stats_of w), (apply_writes
    (cycle_writes (docker_stats_of w) (disk_stats_of w) (net_stats_of w)) reg).
  split; [done|]. split; [by apply update_metrics_done|]. split; [done|].
  pose proof (ordinal_cases i Hi) as Hin.
  assert (∀ s, dict_get n (docker_stats_of w) = Some s →
            ∀ k v, (k, v) ∈ node_writes (n, s) →
              apply_writes (cycle_writes (docker_stats_of w) (disk_stats_of w)
                              (net_stats_of w)) reg !! k = Some v) as Hpresent.
  { intros s Hs k v Hkv. by eapply cycle_lookup_present. }
  assert (dict_get n (docker_stats_of w) = None → ∀ k, k ∈ node_series n →
            apply_writes (cycle_writes (docker_stats_of w) (disk_stats_of w)
                            (net_stats_of w)) reg !! k = Some 0%Q) as Habsent.
  { intros Hnone k Hk. by eapply cycle_lookup_absent. }
  split; [|by split].
  intros k Hk. destruct (dict_get n (docker_stats_of w)) as [s|] eqn:E.
  - rewrite <- (node_writes_keys n s) in Hk.
    apply list_elem_of_fmap in Hk as [[k' v] [-> Hkv]]. simpl.
    exists v. by eapply Hpresent.
  - exists 0%Q. by apply Habsent.
Qed.

(** In [world_demo] node 2 is found but cannot be read, nodes 3 and 4 are
    not running: their series are there all the same. *)
Lemma C1_configured_nodes_witness :
  discovery_ok world_demo = true ∧ 1 ≤ 3 ≤ 4 ∧
  ∃ reg', update_metrics world_demo ∅ = Done () reg' ∧
    (∀ k, k ∈ node_series "nginx-cache-3" → reg' !! k = Some 0%Q).
Proof.
  split; [reflexivity|]. split; [lia|].
  destruct (C1_configured_nodes_always_have_series world_demo ∅ 3)
    as (ds & reg' & Hds & Hreg & _ & _ & Habsent & _); [reflexivity|lia|].
  exists reg'. split; [done|]. apply Habsent.
  assert (Ok ds = Ok (docker_stats_of world_demo)) as [= ->]
    by (rewrite <- Hds; by apply get_docker_cache_stats_ok).
  reflexivity.
Defined.

(** C10.  The capacity series is not uniform over the configured nodes:
    a node without a record gets total bytes 0, a node with a record gets
    the fixed 10737418240, and the two differ. *)
Theorem C10_absent_node_capacity_is_zero (w : world) (reg : registry)
    (docker_stats : dict cache_stats) :
  get_docker_cache_stats w = Ok docker_stats →
  ∃ reg',
    update_metrics w reg = Done () reg' ∧
    (∀ i, 1 ≤ i ≤ 4 → dict_get (node_of_ordinal i) docker_stats = None →
       reg' !! series2 cache_total_bytes (node_of_ordinal i) "cache" = Some 0%Q) ∧
    (∀ n s, dict_get n docker_stats = Some s →
       reg' !! series2 cache_total_bytes n "cache" = Some (inject_Z 10737418240)) ∧
    ¬ (0 == inject_Z 10737418240)%Q.
Proof.
  intros Hds. destruct (get_docker_cache_stats_keys _ _ Hds) as [Hnames Hnd].
  eexists. split; [by apply update_metrics_done|]. split; [|split].
  - intros i Hi Hnone. eapply cycle_lookup_absent; [by apply ordinal_cases|done|].
    unfold node_series, zero_writes. simpl. rewrite !elem_of_cons. tauto.
  - intros n s Hs. eapply cycle_lookup_present; [done..|].
    unfold node_writes. set_solver.
  - done.
Qed.

Lemma C10_absent_node_capacity_witness :
  ∃ docker_stats reg',
    get_docker_cache_stats world_demo = Ok docker_stats ∧
    update_metrics world_demo ∅ = Done () reg' ∧
    dict_get "nginx-cache-3" docker_stats = None ∧
    reg' !! series2 cache_total_bytes "nginx-cache-3" "cache" = Some 0%Q ∧
    is_Some (dict_get "nginx-cache-1" docker_stats) ∧
    reg' !! series2 cache_total_bytes "nginx-cache-1" "cache"
      = Some (inject_Z 10737418240).
Proof.
  destruct (C10_absent_node_capacity_is_zero world_demo ∅ (docker_stats_of world_demo))
    as (reg' & Hreg & Habsent & Hpresent & _); [reflexivity|].
  exists (docker_stats_of world_demo), reg'.
  split; [reflexivity|]. split; [done|]. split; [reflexivity|].
  split; [apply (Habsent 3); [lia|reflexivity]|].
  split; [by eexists|]. by eapply Hpresent.
Defined.

(** C5.  For a node with a record the published usage percent is
    [used / ceiling * 100] against the fixed ceiling 10737418240, and it
    is 0 when nothing is used: the test is on the numerator, [used > 0].
    The disk sampler tests the denominator instead: its percentage is 0
    when the total is not positive. *)
Theorem C5_node_percent_guarded_on_used (w : world) (reg : registry)
    (docker_stats : dict cache_stats) (n : string) (s : cache_stats) :
  get_docker_cache_stats w = Ok docker_stats →
  dict_get n docker_stats = Some s →
  ∃ reg' v,
    update_metrics w reg = Done () reg' ∧
    reg' !! series2 cache_used_bytes n "cache" = Some (inject_Z (cache_size s)) ∧
    reg' !! series2 cache_total_bytes n "cache" = Some (inject_Z node_ceiling) ∧
    node_ceiling = 10737418240 ∧
    reg' !! series2 cache_usage_percent n "cache" = Some v ∧
    (0 ≤ cache_size s →
       (v == inject_Z (cache_size s) / inject_Z node_ceiling * 100)%Q) ∧
    (cache_size s ≤ 0 → v = 0%Q) ∧
    (∀ mount_path d, read_disk w mount_path = Ok d → total d ≤ 0 → percent d = 0%Q).
Proof.
  intros Hds Hs. destruct (get_docker_cache_stats_keys _ _ Hds) as [Hnames Hnd].
  exists (apply_writes (cycle_writes docker_stats (disk_stats_of w) (net_stats_of w)) reg),
    (percent_if (0 <? cache_size s) (cache_size s) node_ceiling).
  split; [by apply update_metrics_done|].
  split; [eapply cycle_lookup_present; [done..|unfold node_writes; set_solver]|].
  split; [eapply cycle_lookup_present; [done..|unfold node_writes; set_solver]|].
  split; [done|].
  split; [eapply cycle_lookup_present; [done..|unfold node_writes; set_solver]|].
  split; [|split].
  - intros Hpos. unfold percent_if. destruct (Z.ltb_spec 0 (cache_size s)); [reflexivity|].
    assert (cache_size s = 0) as -> by lia. reflexivity.
  - intros Hneg. unfold percent_if. by destruct (Z.ltb_spec 0 (cache_size s)); [lia|].
  - intros mount_path d Hd Htotal.
    destruct (read_disk_cases w mount_path)
      as [[_ H]|[(_ & _ & H)|[(_ & _ & _ & H)|(_ & _ & t & u & a & _ & _ & _ & H)]]];
      rewrite H in Hd; simplify_eq; simpl in *; [done..|].
    by apply percent_if_false.
Qed.

Lemma C5_node_percent_witness :
  ∃ docker_stats reg' v,
    get_docker_cache_stats world_thirty = Ok docker_stats ∧
    dict_get "nginx-cache-1" docker_stats = Some (CacheStats 30 3 0 0) ∧
    update_metrics world_thirty ∅ = Done () reg' ∧
    reg' !! series2 cache_usage_percent "nginx-cache-1" "cache" = Some v ∧
    (v == 30 / 10737418240 * 100)%Q.
Proof.
  destruct (C5_node_percent_guarded_on_used world_thirty ∅ (docker_stats_of world_thirty)
              "nginx-cache-1" (CacheStats 30 3 0 0))
    as (reg' & v & Hreg & _ & _ & _ & Hv & Hpos & _); [reflexivity..|].
  exists (docker_stats_of world_thirty), reg', v.
  split; [reflexivity|]. split; [reflexivity|]. split; [done|]. split; [done|].
  rewrite Hpos by (simpl; lia). reflexivity.
Defined.

(** C2 as stated fails: in [world_misses] node 1 logs one miss and no
    hit, so hits + misses = 1, and yet its published hit ratio is 0. *)
Lemma C2_hit_ratio_zero_with_misses :
  ∃ docker_stats s reg' v,
    get_docker_cache_stats world_misses = Ok docker_stats ∧
    dict_get "nginx-cache-1" docker_stats = Some s ∧
    hits s + misses s = 1 ∧
    update_metrics world_misses ∅ = Done () reg' ∧
    reg' !! series1 cache_hit_ratio "nginx-cache-1" = Some v ∧
    (v == 0)%Q.
Proof.
  exists (docker_stats_of world_misses), (CacheStats 1000 100 0 1).
  eexists _, _.
  split; [reflexivity|]. split; [reflexivity|]. split; [reflexivity|].
  split; [apply update_metrics_done; reflexivity|].
  split; [by vm_compute|reflexivity].
Qed.

(** C2, amended.  For a node with a record of non-negative hits and
    misses, the published hit ratio lies between 0 and 100, equals
    [hits / (hits + misses) * 100] when there is a sample and 0 when
    there is none, and is 0 exactly when hits is 0.  For a configured
    node without a record both hits and hit ratio are 0. *)
Theorem C2_hit_ratio_bounds (w : world) (reg : registry)
    (docker_stats : dict cache_stats) :
  get_docker_cache_stats w = Ok docker_stats →
  ∃ reg',
    update_metrics w reg = Done () reg' ∧
    (∀ n s, dict_get n docker_stats = Some s → 0 ≤ hits s → 0 ≤ misses s →
       ∃ v, reg' !! series1 cache_hit_ratio n = Some v ∧
         reg' !! series1 cache_hits n = Some (inject_Z (hits s)) ∧
         reg' !! series1 cache_misses n = Some (inject_Z (misses s)) ∧
         (0 <= v)%Q ∧ (v <= 100)%Q ∧
         ((v == 0)%Q ↔ hits s = 0) ∧
         (hits s + misses s = 0 → (v == 0)%Q) ∧
         (0 < hits s + misses s →
            (v == inject_Z (hits s) / inject_Z (hits s + misses s) * 100)%Q)) ∧
    (∀ i, 1 ≤ i ≤ 4 → dict_get (node_of_ordinal i) docker_stats = None →
       reg' !! series1 cache_hit_ratio (node_of_ordinal i) = Some 0%Q ∧
       reg' !! series1 cache_hits (node_of_ordinal i) = Some 0%Q ∧
       reg' !! series1 cache_misses (node_of_ordinal i) = Some 0%Q).
Proof.
  intros Hds. destruct (get_docker_cache_stats_keys _ _ Hds) as [Hnames Hnd].
  eexists. split; [by apply update_metrics_done|]. split.
  - intros n s Hs Hh Hm.
    exists (percent_if (0 <? hits s + misses s) (hits s) (hits s + misses s)).
    split; [eapply cycle_lookup_present; [done..|unfold node_writes; set_solver]|].
    split; [eapply cycle_lookup_present; [done..|unfold node_writes; set_solver]|].
    split; [eapply cycle_lookup_present; [done..|unfold node_writes; set_solver]|].
    destruct (percent_if_ratio_bounds (hits s) (misses s) Hh Hm) as (H0 & H100 & Hiff).
    split; [done|]. split; [done|]. split; [done|]. split.
    + intros Hsum. apply Hiff. lia.
    + intros Hsum. by apply percent_if_true.
  - intros i Hi Hnone.
    repeat split; (eapply cycle_lookup_absent; [by apply ordinal_cases|done|]);
      unfold node_series, zero_writes; simpl; rewrite !elem_of_cons; tauto.
Qed.

Lemma C2_hit_ratio_witness :
  ∃ docker_stats reg' v,
    get_docker_cache_stats world_demo = Ok docker_stats ∧
    dict_get "nginx-cache-1" docker_stats = Some (CacheStats 1000 100 2 1) ∧
    update_metrics world_demo ∅ = Done () reg' ∧
    reg' !! series1 cache_hit_ratio "nginx-cache-1" = Some v ∧
    (0 <= v)%Q ∧ (v <= 100)%Q ∧ (v == 2 / 3 * 100)%Q.
Proof.
  destruct (C2_hit_ratio_bounds world_demo ∅ (docker_stats_of world_demo))
    as (reg' & Hreg & Hpresent & _); [reflexivity|].
  destruct (Hpresent "nginx-cache-1" (CacheStats 1000 100 2 1))
    as (v & Hv & _ & _ & H0 & H100 & _ & _ & Hval); [reflexivity|simpl; lia..|].
  exists (docker_stats_of world_demo), reg', v.
  split; [reflexivity|]. split; [reflexivity|]. split; [done|]. split; [done|].
  split; [done|]. split; [done|]. rewrite Hval by (simpl; lia). reflexivity.
Defined.

(** C3.  The aggregate record published under node [all], disk [total]:
    used is the sum of the per-node used bytes, total is the sum of the
    per-disk total bytes (the per-node ceiling plays no part), percent is
    [used / total * 100] and 0 when the total is 0, hits and misses are
    the sums, and the hit ratio is computed over the summed hits and
    misses.  The six values depend on the sampled inputs only: whatever
    the registry held before, the same world gives the same aggregate. *)
Theorem C3_aggregate_record (w : world) (reg : registry)
    (docker_stats : dict cache_stats) :
  get_docker_cache_stats w = Ok docker_stats →
  ∃ disk_stats reg' pct ratio,
    get_disk_stats w = Ok disk_stats ∧
    update_metrics w reg = Done () reg' ∧
    let U := sum_of cache_size docker_stats in
    let T := sum_of total disk_stats in
    let H := sum_of hits docker_stats in
    let M := sum_of misses docker_stats in
    reg' !! series2 cache_used_bytes "all" "total" = Some (inject_Z U) ∧
    reg' !! series2 cache_total_bytes "all" "total" = Some (inject_Z T) ∧
    reg' !! series2 cache_usage_percent "all" "total" = Some pct ∧
    (0 < T → (pct == inject_Z U / inject_Z T * 100)%Q) ∧
    (T ≤ 0 → pct = 0%Q) ∧
    reg' !! series1 cache_hits "all" = Some (inject_Z H) ∧
    reg' !! series1 cache_misses "all" = Some (inject_Z M) ∧
    reg' !! series1 cache_hit_ratio "all" = Some ratio ∧
    (0 < H + M → (ratio == inject_Z H / inject_Z (H + M) * 100)%Q) ∧
    (H + M ≤ 0 → ratio = 0%Q) ∧
    (∀ reg2, ∃ reg2', update_metrics w reg2 = Done () reg2' ∧
       ∀ k, k ∈ aggregate_series → reg2' !! k = reg' !! k).
Proof.
  intros Hds. destruct (get_docker_cache_stats_keys _ _ Hds) as [Hnames Hnd].
  exists (disk_stats_of w),
    (apply_writes (cycle_writes docker_stats (disk_stats_of w) (net_stats_of w)) reg),
    (percent_if (0 <? sum_of total (disk_stats_of w))
       (sum_of cache_size docker_stats) (sum_of total (disk_stats_of w))),
    (percent_if (0 <? sum_of hits docker_stats + sum_of misses docker_stats)
       (sum_of hits docker_stats)
       (sum_of hits docker_stats + sum_of misses docker_stats)).
  split; [apply get_disk_stats_eq|]. split; [by apply update_metrics_done|].
  intros U T H M.
  assert (∀ reg0 k v, (k, v) ∈ aggregate_writes U T H M →
            apply_writes (cycle_writes docker_stats (disk_stats_of w) (net_stats_of w))
              reg0 !! k = Some v) as Hagg.
  { intros reg0 k v Hkv. by apply cycle_lookup_aggregate. }
  split; [apply Hagg; unfold aggregate_writes; set_solver|].
  split; [apply Hagg; unfold aggregate_writes; set_solver|].
  split; [apply Hagg; unfold aggregate_writes; set_solver|].
  split; [apply percent_if_true|]. split; [apply percent_if_false|].
  split; [apply Hagg; unfold aggregate_writes; set_solver|].
  split; [apply Hagg; unfold aggregate_writes; set_solver|].
  split; [apply Hagg; unfold aggregate_writes; set_solver|].
  split; [apply percent_if_true|]. split; [apply percent_if_false|].
  intros reg2. eexists. split; [by apply update_metrics_done|].
  intros k Hk. rewrite <- (aggregate_writes_keys U T H M) in Hk.
  apply list_elem_of_fmap in Hk as [[k' v] [-> Hkv]]. simpl.
  by rewrite !(Hagg _ _ _ Hkv).
Qed.

(** The spec's scenario on [world_thirty]: the disks total 100 bytes, the
    nodes use 30 bytes, and the aggregate percent is 30. *)
Lemma C3_aggregate_record_witness :
  ∃ docker_stats reg' pct,
    get_docker_cache_stats world_thirty = Ok docker_stats ∧
    update_metrics world_thirty ∅ = Done () reg' ∧
    reg' !! series2 cache_used_bytes "all" "total" = Some 30%Q ∧
    reg' !! series2 cache_total_bytes "all" "total" = Some 100%Q ∧
    reg' !! series2 cache_usage_percent "all" "total" = Some pct ∧
    (pct == 30)%Q.
Proof.
  destruct (C3_aggregate_record world_thirty ∅ (docker_stats_of world_thirty))
    as (dks & reg' & pct & ratio & Hdks & Hreg & HU & HT & Hpct & Hval & _);
    [reflexivity|].
  assert (Ok dks = Ok (disk_stats_of world_thirty)) as [= ->]
    by (rewrite <- Hdks; apply get_disk_stats_eq).
  exists (docker_stats_of world_thirty), reg', pct.
  split; [reflexivity|]. split; [done|]. split; [exact HU|]. split; [exact HT|].
  split; [done|]. rewrite Hval by (vm_compute; reflexivity). reflexivity.
Defined.

(** The cache series of a node are decided by the node's record alone. *)
Lemma cycle_lookup_node_determined ds ds' dks dks' ns ns' reg n k :
  NoDup ds.*1 → Forall is_node_name ds.*1 →
  NoDup ds'.*1 → Forall is_node_name ds'.*1 →
  is_node_name n → dict_get n ds' = dict_get n ds → k ∈ node_series n →
  apply_writes (cycle_writes ds' dks' ns') reg !! k
  = apply_writes (cycle_writes ds dks ns) reg !! k.
Proof.
  intros Hnd Hnames Hnd' Hnames' Hname Hsame Hk.
  destruct (dict_get n ds) as [s|] eqn:E.
  - pose proof Hk as Hk'. rewrite <- (node_writes_keys n s) in Hk'.
    apply list_elem_of_fmap in Hk' as [[k' v] [-> Hkv]]. simpl.
    rewrite (cycle_lookup_present ds' dks' ns' reg n s k' v) by done.
    by rewrite (cycle_lookup_present ds dks ns reg n s k' v).
  - destruct (decide (n ∈ node_of_ordinal <$> node_ordinals)) as [Hord|Hord].
    + apply list_elem_of_fmap in Hord as (i & -> & Hi).
      rewrite (cycle_lookup_absent ds' dks' ns' reg i k) by done.
      by rewrite (cycle_lookup_absent ds dks ns reg i k).
    + assert (∀ i, i ∈ node_ordinals → n ≠ node_of_ordinal i) as Hnot.
      { intros i Hi ->. destruct Hord. apply list_elem_of_fmap. by exists i. }
      rewrite (cycle_lookup_untouched ds' dks' ns' reg n k) by done.
      by rewrite (cycle_lookup_untouched ds dks ns reg n k).
Qed.

(** C6 as stated fails: in [world_demo] the size command of node 1 exits
    non-zero on the second slot, a command error in a sampling step of
    that node, and the node's record keeps the sums of the other steps
    instead of degrading to the all-zero record. *)
Lemma C6_command_error_keeps_partial_record :
  returncode (world_demo (DuDisk "tc-nginx-nginx-cache-1-1" 2)) ≠ 0 ∧
  detect_disks world_demo "tc-nginx-nginx-cache-1-1" = Ok [1; 2] ∧
  ∃ docker_stats,
    get_docker_cache_stats world_demo = Ok docker_stats ∧
    dict_get "nginx-cache-1" docker_stats = Some (CacheStats 1000 100 2 1) ∧
    CacheStats 1000 100 2 1 ≠ zero_cache_stats.
Proof.
  split; [done|]. split; [reflexivity|].
  exists (docker_stats_of world_demo).
  split; [reflexivity|]. split; [reflexivity|done].
Qed.

(** ** The main loop *)

(** A cycle ends normally with the writes of [cycle_writes], or fails in
    the cache sampler before any write. *)
Lemma update_metrics_cases w reg :
  (∃ docker_stats, get_docker_cache_stats w = Ok docker_stats ∧
     update_metrics w reg
     = Done () (apply_writes
                  (cycle_writes docker_stats (disk_stats_of w) (net_stats_of w)) reg)) ∨
  (get_docker_cache_stats w = Raise UnboundLocalError ∧
     update_metrics w reg = Failed UnboundLocalError reg).
Proof.
  destruct (get_docker_cache_stats w) as [ds|e] eqn:E.
  - left. exists ds. split; [done|]. by apply update_metrics_done.
  - right. pose proof (get_docker_cache_stats_raises _ _ E) as ->.
    split; [done|]. by apply update_metrics_failed.
Qed.

Lemma main_cycle_running w reg trace :
  ∃ reg' o,
    main_cycle w reg trace = Running reg' (trace ++ [o; Slept 30]) ∧
    (o = MetricsUpdated ∨ ∃ e, o = ErrorLogged e).
Proof.
  unfold main_cycle. destruct (update_metrics w reg) as [[] reg'|e reg'].
  - exists reg', MetricsUpdated. split; [done|by left].
  - rewrite is_Exception_all. exists reg', (ErrorLogged e). split; [done|]. right. by exists e.
Qed.

Lemma main_cycles_running worlds reg trace :
  ∃ reg' outcomes,
    main_cycles worlds (Running reg trace)
    = Running reg' (trace ++ flat_map (λ o, [o; Slept 30]) outcomes) ∧
    length outcomes = length worlds ∧
    Forall (λ o, o = MetricsUpdated ∨ ∃ e, o = ErrorLogged e) outcomes.
Proof.
  revert reg trace. induction worlds as [|w worlds IH]; intros reg trace.
  - exists reg, []. simpl. by rewrite app_nil_r.
  - destruct (main_cycle_running w reg trace) as (reg1 & o & Hcycle & Ho).
    destruct (IH reg1 (trace ++ [o; Slept 30])%list) as (reg' & outcomes & Hrest & Hlen & Hall).
    exists reg', (o :: outcomes). cbn [main_cycles]. rewrite Hcycle, Hrest.
    split; [by rewrite <- app_assoc|]. split; [simpl; by rewrite Hlen|].
    by constructor.
Qed.

(** C7.  Whatever the successive worlds are, [main] is still in its loop
    after any number of iterations: every iteration ends by logging
    either the update or the error and sleeping 30 seconds, and the next
    one follows.  An iteration whose update raises logs the exception and
    leaves the registry as it was; no exception leaves [main]. *)
Theorem C7_main_loop_never_stops (worlds : list world) :
  (∃ reg outcomes,
     main worlds
     = Running reg (ServerStarted 9199 :: flat_map (λ o, [o; Slept 30]) outcomes) ∧
     length outcomes = length worlds ∧
     Forall (λ o, o = MetricsUpdated ∨ ∃ e, o = ErrorLogged e) outcomes) ∧
  (∀ w reg trace e reg',
     update_metrics w reg = Failed e reg' →
     main_cycle w reg trace = Running reg (trace ++ [ErrorLogged e; Slept 30])) ∧
  (∀ w reg trace reg',
     update_metrics w reg = Done () reg' →
     main_cycle w reg trace = Running reg' (trace ++ [MetricsUpdated; Slept 30])) ∧
  (∀ e, is_Exception e = true).
Proof.
  split; [|split; [|split]].
  - unfold main.
    destruct (main_cycles_running worlds ∅ [ServerStarted 9199])
      as (reg & outcomes & Hmain & Hlen & Hall).
    by exists reg, outcomes.
  - intros w reg trace e reg' Hfail. unfold main_cycle.
    destruct (update_metrics_cases w reg) as [(ds & _ & Hdone)|[_ Hfailed]];
      [congruence|].
    rewrite Hfailed in Hfail. simplify_eq. by rewrite Hfailed.
  - intros w reg trace reg' Hdone. unfold main_cycle. by rewrite Hdone.
  - apply is_Exception_all.
Qed.

(** A first cycle in [world_stray] fails in the cache sampler; the loop
    logs the error, sleeps, and the second cycle publishes. *)
Lemma C7_main_loop_witness :
  ∃ reg,
    main [world_stray; world_demo]
    = Running reg [ServerStarted 9199; ErrorLogged UnboundLocalError; Slept 30;
                   MetricsUpdated; Slept 30] ∧
    update_metrics world_stray ∅ = Failed UnboundLocalError ∅ ∧
    update_metrics world_demo ∅ = Done () reg.
Proof.
  destruct (C7_main_loop_never_stops [world_stray; world_demo])
    as (_ & Hfail & Hdone & _).
  assert (update_metrics world_stray ∅ = Failed UnboundLocalError ∅) as H1
    by (by apply update_metrics_failed).
  destruct (update_metrics_cases world_demo ∅) as [(ds & _ & H2)|[H2 _]];
    [|by vm_compute in H2].
  eexists. split; [|split; [exact H1|exact H2]].
  unfold main. cbn [main_cycles].
  rewrite (Hfail _ _ _ _ _ H1). by rewrite (Hdone _ _ _ _ H2).
Defined.

(** ** The metric catalogue *)

Lemma cycle_writes_gauges docker_stats disk_stats net_stats k v :
  (k, v) ∈ cycle_writes docker_stats disk_stats net_stats →
  ∃ g, g ∈ gauges ∧ series_of_gauge k g.
Proof.
  intros Hin. unfold cycle_writes in Hin. rewrite !elem_of_app, !elem_of_flat_map in Hin.
  assert (∀ n k, k ∈ node_series n → ∃ g, g ∈ gauges ∧ series_of_gauge k g) as Hnode.
  { intros n k0 Hk. unfold node_series, zero_writes in Hk. simpl in Hk.
    repeat (apply elem_of_cons in Hk as [->|Hk]); try (by apply elem_of_nil in Hk);
      eexists; (split; [|split; reflexivity]); unfold gauges;
      rewrite !elem_of_cons; tauto. }
  destruct Hin as [(i & Hi & Hin)|[([n' s] & Hitem & Hin)|[([d s] & _ & Hin)
                  |[Hin|([iface s] & _ & Hin)]]]].
  - unfold zero_fill_writes in Hin. destruct (dict_mem _ _); [by apply elem_of_nil in Hin|].
    apply zero_writes_value in Hin as [_ Hk]. by eapply Hnode.
  - apply (Hnode n'). rewrite <- (node_writes_keys n' s).
    apply list_elem_of_fmap. by exists (k, v).
  - unfold disk_writes in Hin.
    repeat (apply elem_of_cons in Hin as [Heq|Hin]); try (by apply elem_of_nil in Hin);
      simplify_eq; eexists; (split; [|split; reflexivity]); unfold gauges;
      rewrite !elem_of_cons; tauto.
  - unfold aggregate_writes in Hin.
    repeat (apply elem_of_cons in Hin as [Heq|Hin]); try (by apply elem_of_nil in Hin);
      simplify_eq; eexists; (split; [|split; reflexivity]); unfold gauges;
      rewrite !elem_of_cons; tauto.
  - unfold net_writes in Hin.
    repeat (apply elem_of_cons in Hin as [Heq|Hin]); try (by apply elem_of_nil in Hin);
      simplify_eq; eexists; (split; [|split; reflexivity]); unfold gauges;
      rewrite !elem_of_cons; tauto.
Qed.

(** C8 as stated fails: the catalogue of the specification names the
    metric [cache_disk_used_bytes]; no gauge of the exporter has that
    name, the gauge is called [nginx_cache_disk_used_bytes]. *)
Lemma C8_catalogue_name_not_published :
  ("cache_disk_used_bytes", ["node"; "disk"]) ∈ spec_catalogue ∧
  ("cache_disk_used_bytes" ∉ g_name <$> gauges) ∧
  g_name cache_used_bytes = "nginx_cache_disk_used_bytes" ∧
  signature <$> gauges ≠ spec_catalogue.
Proof.
  split; [unfold spec_catalogue; rewrite !elem_of_cons; tauto|].
  split; [|split; [done|done]].
  unfold gauges. simpl. rewrite !elem_of_cons, elem_of_nil.
  intros H. repeat (destruct H as [H|H]; [discriminate H|]). done.
Qed.

(** C8, amended.  The published metric names are those of the catalogue
    with [nginx_] before each of the seven cache metrics
    ([nginx_cache_disk_used_bytes], ...), the four
    [network_interface_*] names being as the catalogue has them, with the
    catalogue's label keys; every series a cycle creates belongs to one of
    these gauges. *)
Theorem C8_metric_names_and_label_keys :
  signature <$> gauges
  = [("nginx_cache_disk_used_bytes", ["node"; "disk"]);
     ("nginx_cache_disk_total_bytes", ["node"; "disk"]);
     ("nginx_cache_object_count", ["node"]);
     ("nginx_cache_disk_usage_percent", ["node"; "disk"]);
     ("nginx_cache_hits_total", ["node"]);
     ("nginx_cache_misses_total", ["node"]);
     ("nginx_cache_hit_ratio", ["node"]);
     ("network_interface_rx_bytes", ["interface"]);
     ("network_interface_tx_bytes", ["interface"]);
     ("network_interface_rx_packets", ["interface"]);
     ("network_interface_tx_packets", ["interface"])] ∧
  signature <$> gauges = with_nginx_prefix <$> spec_catalogue ∧
  (∀ w reg reg',
     (update_metrics w reg = Done () reg' ∨ ∃ e, update_metrics w reg = Failed e reg') →
     ∀ k, is_Some (reg' !! k) →
       is_Some (reg !! k) ∨ ∃ g, g ∈ gauges ∧ series_of_gauge k g).
Proof.
  split; [done|]. split; [done|].
  intros w reg reg' Hupd k Hk.
  destruct (update_metrics_cases w reg) as [(ds & _ & Hdone)|[_ Hfailed]].
  - destruct Hupd as [Hupd|[e Hupd]]; [|congruence].
    rewrite Hdone in Hupd. simplify_eq.
    destruct (decide (k ∈ (cycle_writes ds (disk_stats_of w) (net_stats_of w)).*1))
      as [Hin|Hin].
    + right. apply list_elem_of_fmap in Hin as [[k' v] [-> Hin]].
      by eapply cycle_writes_gauges.
    + left. by rewrite lookup_apply_writes_notin in Hk.
  - destruct Hupd as [Hupd|[e Hupd]]; [congruence|].
    rewrite Hfailed in Hupd. simplify_eq. by left.
Qed.

Lemma C8_metric_names_witness :
  ∃ reg',
    update_metrics world_demo ∅ = Done () reg' ∧
    ∀ k, is_Some (reg' !! k) → ∃ g, g ∈ gauges ∧ series_of_gauge k g.
Proof.
  destruct C8_metric_names_and_label_keys as (_ & _ & Hseries).
  destruct (update_metrics_cases world_demo ∅) as [(ds & _ & H)|[H _]];
    [|by vm_compute in H].
  eexists. split; [exact H|].
  intros k Hk. destruct (Hseries _ _ _ (or_introl H) k Hk) as [Hold|Hg]; [|done].
  rewrite lookup_empty in Hold. by destruct Hold.
Defined.

(** ** Further properties of the samplers *)

(** *** Hit and miss counts *)

Lemma count_step_bounds acc line :
  0 ≤ acc.1 → 0 ≤ acc.2 →
  0 ≤ (count_step acc line).1 ∧ 0 ≤ (count_step acc line).2 ∧
  (count_step acc line).1 + (count_step acc line).2 ≤ acc.1 + acc.2 + 1.
Proof.
  destruct acc as [h m]. unfold count_step. simpl. intros Hh Hm.
  destruct (PyStr.contains "CacheStatus=HIT" line); simpl; [lia|].
  destruct (PyStr.contains "CacheStatus=MISS" line); simpl; lia.
Qed.

Lemma count_fold_bounds lines acc :
  0 ≤ acc.1 → 0 ≤ acc.2 →
  0 ≤ (fold_left count_step lines acc).1 ∧ 0 ≤ (fold_left count_step lines acc).2 ∧
  (fold_left count_step lines acc).1 + (fold_left count_step lines acc).2
    ≤ acc.1 + acc.2 + Z.of_nat (length lines).
Proof.
  revert acc. induction lines as [|line lines IH]; intros acc Hh Hm.
  - simpl. lia.
  - cbn [fold_left length].
    destruct (count_step_bounds acc line Hh Hm) as (Hh' & Hm' & Hsum).
    destruct (IH (count_step acc line) Hh' Hm') as (? & ? & ?). lia.
Qed.

Lemma sample_container_counts w container s :
  sample_container w container = Ok s →
  0 ≤ hits s ∧ 0 ≤ misses s ∧
  hits s + misses s
    ≤ Z.of_nat (length (PyStr.splitlines (stdout (w (LogsCacheStatus container))))).
Proof.
  unfold sample_container.
  destruct (detect_disks w container) as [disks|e]; simpl; [|done].
  destruct (for_each _ _ _) as [[cs oc]|e]; simpl; [|done].
  destruct ((returncode (w (LogsCacheStatus container)) =? 0)
            && PyStr.truthy (stdout (w (LogsCacheStatus container)))).
  - pose proof (count_fold_bounds
      (PyStr.splitlines (stdout (w (LogsCacheStatus container)))) (0, 0)) as Hb.
    destruct (fold_left count_step _ (0, 0)) as [h m]. simpl in Hb.
    intros [= <-]. simpl. lia.
  - intros [= <-]. simpl. lia.
Qed.

Lemma dict_set_values {V : Type} (P : V → Prop) k v (d : dict V) :
  P v → Forall P d.*2 → Forall P (dict_set k v d).*2.
Proof.
  intros Hv. induction d as [|[k' v'] d IH]; simpl; intros Hd.
  - by constructor.
  - apply Forall_cons in Hd as [Hv' Hd].
    destruct (String.eqb k k'); simpl; constructor; auto.
Qed.

Lemma container_step_values (P : cache_stats → Prop) w st container st' :
  container_step w st container = Ok st' →
  P zero_cache_stats → (∀ s, sample_container w container = Ok s → P s) →
  Forall P st.2.*2 → Forall P st'.2.*2.
Proof.
  destruct st as [node_name stats]. unfold container_step.
  intros Hstep Hzero Hsample Hstats.
  destruct (if PyStr.contains "nginx-cache-" container
            then n ← node_name_of container; Ok (Some n)
            else Ok node_name) as [nn|e]; simpl in Hstep; [|done].
  destruct (sample_container w container) as [s|e]; simpl in Hstep.
  - destruct nn as [n|]; simpl in Hstep; [|done].
    simplify_eq. simpl. apply dict_set_values; auto.
  - rewrite is_Exception_all in Hstep.
    destruct nn as [n|]; simpl in Hstep; [|done].
    simplify_eq. simpl. by apply dict_set_values.
Qed.

Lemma containers_loop_values (P : cache_stats → Prop) w l st st' :
  for_each (container_step w) l st = Ok st' →
  P zero_cache_stats → (∀ c s, sample_container w c = Ok s → P s) →
  Forall P st.2.*2 → Forall P st'.2.*2.
Proof.
  intros Hloop Hzero Hsample. revert st Hloop.
  induction l as [|c l IH]; intros st Hloop Hst.
  - simpl in Hloop. by simplify_eq.
  - rewrite for_each_cons in Hloop.
    destruct (container_step w st c) as [st1|e] eqn:E; simpl in Hloop; [|done].
    apply (IH st1 Hloop). eapply container_step_values; eauto.
Qed.

(** Every record the cache sampler returns has non-negative hit and miss
    counts, and so every per-node hit ratio a cycle publishes lies between
    0 and 100, whatever the commands answered. *)
Theorem sampled_hit_ratio_always_in_range (w : world) (reg : registry)
    (docker_stats : dict cache_stats) (n : string) (s : cache_stats) :
  get_docker_cache_stats w = Ok docker_stats →
  dict_get n docker_stats = Some s →
  0 ≤ hits s ∧ 0 ≤ misses s ∧
  ∃ reg' v,
    update_metrics w reg = Done () reg' ∧
    reg' !! series1 cache_hit_ratio n = Some v ∧ (0 <= v)%Q ∧ (v <= 100)%Q.
Proof.
  intros Hds Hs.
  assert (0 ≤ hits s ∧ 0 ≤ misses s) as [Hh Hm].
  { unfold get_docker_cache_stats in Hds. cbv zeta in Hds.
    destruct (for_each (container_step w) (containers w) _)
      as [[nn st]|e] eqn:E; simpl in Hds; [|done].
    simplify_eq.
    pose proof (containers_loop_values (λ s, 0 ≤ hits s ∧ 0 ≤ misses s)
                  w _ _ _ E) as Hall.
    simpl in Hall.
    eapply Forall_forall in Hall.
    - exact Hall.
    - done.
    - intros c s' Hs'. by destruct (sample_container_counts _ _ _ Hs') as (? & ? & _).
    - constructor.
    - apply list_elem_of_fmap. exists (n, s). split; [done|]. by apply dict_get_elem. }
  split; [done|]. split; [done|].
  destruct (get_docker_cache_stats_keys _ _ Hds) as [Hnames Hnd].
  destruct (percent_if_ratio_bounds (hits s) (misses s) Hh Hm) as (H0 & H100 & _).
  eexists _, _. split; [by apply update_metrics_done|].
  split; [|by split].
  eapply cycle_lookup_present; [done..|].
  unfold node_writes. rewrite !elem_of_cons. tauto.
Qed.

Lemma sampled_hit_ratio_witness :
  ∃ docker_stats reg' v,
    get_docker_cache_stats world_misses = Ok docker_stats ∧
    dict_get "nginx-cache-1" docker_stats = Some (CacheStats 1000 100 0 1) ∧
    update_metrics world_misses ∅ = Done () reg' ∧
    reg' !! series1 cache_hit_ratio "nginx-cache-1" = Some v ∧
    (0 <= v)%Q ∧ (v <= 100)%Q.
Proof.
  destruct (sampled_hit_ratio_always_in_range world_misses ∅
              (docker_stats_of world_misses) "nginx-cache-1" (CacheStats 1000 100 0 1))
    as (_ & _ & reg' & v & Hreg & Hv & H0 & H100); [reflexivity..|].
  exists (docker_stats_of world_misses), reg', v.
  split; [reflexivity|]. split; [reflexivity|]. by repeat split.
Defined.

(** *** Discovery *)

Lemma stats_fold_app w l1 l2 d :
  foldl (λ d c, dict_set (node_label c) (cache_record w c) d) d (l1 ++ l2)
  = foldl (λ d c, dict_set (node_label c) (cache_record w c) d)
      (foldl (λ d c, dict_set (node_label c) (cache_record w c) d) d l1) l2.
Proof. apply foldl_app. Qed.

(** When several discovered containers are filed under one node, the
    node's record is the one of the container listed last. *)
Theorem last_listed_container_wins (w : world) (before after : list string)
    (container : string) :
  discovery_ok w = true →
  containers w = (before ++ container :: after)%list →
  (∀ c', c' ∈ after → node_label c' ≠ node_label container) →
  ∃ docker_stats,
    get_docker_cache_stats w = Ok docker_stats ∧
    dict_get (node_label container) docker_stats = Some (cache_record w container).
Proof.
  intros Hok Hlist Hafter. exists (docker_stats_of w).
  split; [by apply get_docker_cache_stats_ok|].
  unfold docker_stats_of. rewrite Hlist, stats_fold_app.
  apply stats_fold_last.
  - intros c' Hc' Hlabel. apply elem_of_cons in Hc' as [->|Hc']; [done|].
    by destruct (Hafter c' Hc').
  - right. by left.
Qed.

(** In [world_replicas] two replicas of node 1 are listed: the node shows
    the 7 bytes of the second, the 1000 bytes of the first are gone. *)
Lemma last_listed_container_witness :
  discovery_ok world_replicas = true ∧
  containers world_replicas = ["tc-nginx-nginx-cache-1-1"; "tc-nginx-nginx-cache-1-2"] ∧
  node_label "tc-nginx-nginx-cache-1-1" = node_label "tc-nginx-nginx-cache-1-2" ∧
  cache_record world_replicas "tc-nginx-nginx-cache-1-1" = CacheStats 1000 100 2 1 ∧
  ∃ docker_stats,
    get_docker_cache_stats world_replicas = Ok docker_stats ∧
    dict_get "nginx-cache-1" docker_stats = Some (CacheStats 7 2 1 0).
Proof.
  split; [reflexivity|]. split; [reflexivity|]. split; [reflexivity|].
  split; [reflexivity|].
  destruct (last_listed_container_wins world_replicas ["tc-nginx-nginx-cache-1-1"] []
              "tc-nginx-nginx-cache-1-2") as (ds & Hds & Hget).
  - reflexivity.
  - reflexivity.
  - intros c' Hc'. by apply elem_of_nil in Hc'.
  - exists ds. split; [done|]. exact Hget.
Defined.

(** Once [node_name] is assigned the discovery loop cannot fail. *)
Lemma containers_loop_assigned w l n stats :
  ∃ st', for_each (container_step w) l (Some n, stats) = Ok st'.
Proof.
  revert n stats. induction l as [|c l IH]; intros n stats; [by eexists|].
  rewrite for_each_cons.
  assert (∃ n' stats', container_step w (Some n, stats) c = Ok (Some n', stats'))
    as (n' & stats' & ->).
  { destruct (PyStr.contains "nginx-cache-" c) eqn:Hc.
    - rewrite container_step_marked by done. by eexists _, _.
    - unfold container_step. rewrite Hc. simpl.
      destruct (sample_container w c); simpl; [by eexists _, _|].
      rewrite is_Exception_all. by eexists _, _. }
  simpl. apply IH.
Qed.

(** The cache sampler raises exactly when the first name listed by the
    discovery command lacks the marker [nginx-cache-]; the exception is
    then the [UnboundLocalError] of the unassigned [node_name], raised
    again by the handler that prints it.  An empty listing is no error. *)
Theorem cache_sampler_raises_iff_first_name_unmarked (w : world) :
  (∀ e, get_docker_cache_stats w = Raise e → e = UnboundLocalError) ∧
  ((∃ e, get_docker_cache_stats w = Raise e) ↔
   ∃ c rest, containers w = c :: rest ∧ PyStr.contains "nginx-cache-" c = false) ∧
  (containers w = [] → get_docker_cache_stats w = Ok []).
Proof.
  split; [apply get_docker_cache_stats_raises|]. split; [split|].
  - intros [e He]. unfold get_docker_cache_stats in He. cbv zeta in He.
    destruct (containers w) as [|c rest]; [done|].
    exists c, rest. split; [done|].
    destruct (PyStr.contains "nginx-cache-" c) eqn:Hc; [|done].
    rewrite for_each_cons, container_step_marked in He by done. simpl in He.
    destruct (containers_loop_assigned w rest (node_label c)
                (dict_set (node_label c) (cache_record w c) [])) as [[nn st] Hst].
    destruct (for_each (container_step w) rest _) as [st'|e'] eqn:E;
      [by destruct st'|].
    discriminate Hst.
  - intros (c & rest & Hlist & Hc). exists UnboundLocalError.
    unfold get_docker_cache_stats. cbv zeta. rewrite Hlist, for_each_cons.
    unfold container_step. rewrite Hc. simpl.
    destruct (sample_container w c); simpl; [done|]. by rewrite is_Exception_all.
  - intros Hnone. unfold get_docker_cache_stats. by rewrite Hnone.
Qed.

Lemma cache_sampler_raises_witness :
  containers world_stray = ["proxy"] ∧
  PyStr.contains "nginx-cache-" "proxy" = false ∧
  get_docker_cache_stats world_stray = Raise UnboundLocalError.
Proof.
  split; [reflexivity|]. split; [reflexivity|].
  destruct (cache_sampler_raises_iff_first_name_unmarked world_stray)
    as (Hexn & [_ Hraise] & _).
  destruct Hraise as [e He]; [by exists "proxy", []|].
  by rewrite He, (Hexn e He).
Defined.

(** The names agree across the samplers: for every ordinal 1..4 the
    container name the network sampler builds carries the marker, and the
    node name the cache sampler derives from it is the one the network
    sampler and the zero-filling loop use. *)
Theorem conventional_names_agree (i : Z) :
  1 ≤ i ≤ 4 →
  PyStr.contains "nginx-cache-" (container_of_ordinal i) = true ∧
  node_name_of (container_of_ordinal i) = Ok (node_of_ordinal i).
Proof.
  intros Hi.
  assert (i = 1 ∨ i = 2 ∨ i = 3 ∨ i = 4) as [Heq|[Heq|[Heq|Heq]]] by lia;
    rewrite Heq; by vm_compute.
Qed.

Lemma conventional_names_witness :
  1 ≤ 3 ≤ 4 ∧
  node_name_of "tc-nginx-nginx-cache-3-1" = Ok "nginx-cache-3".
Proof.
  split; [lia|]. destruct (conventional_names_agree 3) as [_ H]; [lia|]. exact H.
Defined.

(** *** Slots *)

Lemma is_digit_bounds c :
  PyStr.is_digit c = true → (48 ≤ nat_of_ascii c ≤ 57)%nat.
Proof.
  unfold PyStr.is_digit. cbv zeta. intros H. apply andb_prop in H as [H1 H2].
  apply Nat.leb_le in H1. apply Nat.leb_le in H2. lia.
Qed.

Lemma is_digit_not_space c : PyStr.is_digit c = true → PyStr.is_space c = false.
Proof.
  intros H%is_digit_bounds. unfold PyStr.is_space. cbv zeta.
  destruct (Nat.leb_spec 9 (nat_of_ascii c)), (Nat.leb_spec (nat_of_ascii c) 13),
    (Nat.leb_spec 28 (nat_of_ascii c)), (Nat.leb_spec (nat_of_ascii c) 32);
    simpl; try done; lia.
Qed.

Lemma all_digits_rstrip s : PyStr.all_digits s = true → PyStr.rstrip s = s.
Proof.
  induction s as [|c s IH]; [done|]. cbn [PyStr.all_digits PyStr.rstrip].
  intros H. apply andb_prop in H as [Hc Hs]. rewrite (IH Hs).
  destruct s; [|done]. by rewrite is_digit_not_space.
Qed.

Lemma all_digits_strip s : PyStr.all_digits s = true → PyStr.strip s = s.
Proof.
  intros H. unfold PyStr.strip.
  assert (PyStr.lstrip s = s) as ->.
  { destruct s as [|c s]; [done|]. cbn [PyStr.all_digits PyStr.lstrip] in *.
    apply andb_prop in H as [Hc _]. by rewrite is_digit_not_space. }
  by apply all_digits_rstrip.
Qed.

Lemma digits_go_all_digits s acc prev :
  PyStr.all_digits s = true → 0 ≤ acc → prev = true ∨ s ≠ EmptyString →
  ∃ n, PyStr.digits_go acc prev s = Some n ∧ 0 ≤ n.
Proof.
  revert acc prev. induction s as [|c s IH]; intros acc prev Hs Hacc Hprev.
  - destruct Hprev as [->|H]; [|done]. by exists acc.
  - cbn [PyStr.all_digits PyStr.digits_go] in *.
    apply andb_prop in Hs as [Hc Hs]. rewrite Hc.
    apply IH; [done| |by left].
    pose proof (is_digit_bounds c Hc). unfold PyStr.digit_val. lia.
Qed.

(** [int] accepts every string for which [isdigit] holds. *)
Lemma isdigit_parse_int s :
  PyStr.isdigit s = true → ∃ n, PyStr.parse_int s = Some n ∧ 0 ≤ n.
Proof.
  unfold PyStr.isdigit. intros H. apply andb_prop in H as [Hne Hs].
  unfold PyStr.parse_int. rewrite (all_digits_strip s Hs).
  destruct s as [|c r]; [done|].
  pose proof Hs as Hs'. cbn [PyStr.all_digits] in Hs'.
  apply andb_prop in Hs' as [Hc _]. pose proof (is_digit_bounds c Hc) as Hb.
  destruct (Nat.eqb_spec (nat_of_ascii c) 45) as [E|_]; [lia|].
  destruct (Nat.eqb_spec (nat_of_ascii c) 43) as [E|_]; [lia|].
  apply digits_go_all_digits; [done|lia|by right].
Qed.

Lemma available_disks_step_ok acc line :
  Forall (λ d, 0 ≤ d) acc →
  ∃ acc', available_disks_step acc line = Ok acc' ∧ Forall (λ d, 0 ≤ d) acc'.
Proof.
  intros Hacc. unfold available_disks_step.
  destruct (PyStr.contains "/cache/disk" line); [|by exists acc].
  destruct (PyStr.isdigit (PyStr.replace "/cache/disk" "" line)) eqn:E; [|by exists acc].
  destruct (isdigit_parse_int _ E) as (n & Hn & Hpos).
  unfold int. rewrite Hn. simpl. eexists. split; [done|].
  apply Forall_app. split; [done|]. by constructor.
Qed.

(** On a listing printed in ASCII, detecting the slots of a container
    cannot fail: there [isdigit] holds only of strings that [int]
    accepts.  The slot numbers found are never negative.  (Outside
    ASCII, [str.isdigit] also holds of digits such as the superscript
    two, which [int] rejects.) *)
Theorem slot_detection_never_fails (w : world) (container : string) :
  ascii_text (stdout (w (LsDisks container))) = true →
  ∃ disks, detect_disks w container = Ok disks ∧ Forall (λ d, 0 ≤ d) disks.
Proof.
  intros _. unfold detect_disks.
  destruct ((returncode (w (LsDisks container)) =? 0)
            && PyStr.truthy (PyStr.strip (stdout (w (LsDisks container)))));
    [|by exists []].
  assert (∀ lines acc, Forall (λ d, 0 ≤ d) acc →
            ∃ disks, for_each available_disks_step lines acc = Ok disks
                     ∧ Forall (λ d, 0 ≤ d) disks) as Hloop.
  { induction lines as [|line lines IH]; intros acc Hacc; [by exists acc|].
    rewrite for_each_cons.
    destruct (available_disks_step_ok acc line Hacc) as (acc' & -> & Hacc').
    simpl. by apply IH. }
  apply Hloop. constructor.
Qed.

Lemma slot_detection_witness :
  ascii_text (stdout (world_demo (LsDisks "tc-nginx-nginx-cache-1-1"))) = true ∧
  detect_disks world_demo "tc-nginx-nginx-cache-1-1" = Ok [1; 2].
Proof.
  split; [reflexivity|].
  destruct (slot_detection_never_fails world_demo "tc-nginx-nginx-cache-1-1")
    as (disks & Hdisks & _); [reflexivity|].
  rewrite Hdisks. f_equal.
  assert (Ok disks = Ok [1; 2]) as [= ->] by (rewrite <- Hdisks; reflexivity).
  done.
Defined.

Lemma disk_step_ok w container cs oc disk size count :
  returncode (w (DuDisk container disk)) = 0 →
  PyStr.truthy (PyStr.strip (stdout (w (DuDisk container disk)))) = true →
  (p ← index (PyStr.split_ws (PyStr.strip (stdout (w (DuDisk container disk))))) 0;
   int p) = Ok size →
  returncode (w (FindCount container disk)) = 0 →
  int (PyStr.strip (stdout (w (FindCount container disk)))) = Ok count →
  disk_step w container (cs, oc) disk = Ok (cs + size, oc + count).
Proof.
  intros Hrc Htruthy Hsize Hrc' Hcount. unfold disk_step.
  rewrite Hrc, Htruthy, Hrc', Hcount. simpl.
  destruct (index _ 0) as [p|]; simpl in *; [|done].
  by rewrite Hsize.
Qed.

(** When no slot is detected the four default slots 1..4 are read: the
    record adds up their sizes and their file counts. *)
Theorem default_slots_are_summed (w : world) (container : string)
    (size count : Z → Z) :
  detect_disks w container = Ok [] →
  (∀ d, 1 ≤ d ≤ 4 →
     returncode (w (DuDisk container d)) = 0 ∧
     PyStr.truthy (PyStr.strip (stdout (w (DuDisk container d)))) = true ∧
     (p ← index (PyStr.split_ws (PyStr.strip (stdout (w (DuDisk container d))))) 0;
      int p) = Ok (size d) ∧
     returncode (w (FindCount container d)) = 0 ∧
     int (PyStr.strip (stdout (w (FindCount container d)))) = Ok (count d)) →
  ∃ s, sample_container w container = Ok s ∧
    cache_size s = size 1 + size 2 + size 3 + size 4 ∧
    object_count s = count 1 + count 2 + count 3 + count 4.
Proof.
  intros Hdetect Hslots. unfold sample_container. rewrite Hdetect.
  cbn -[disk_step for_each]. rewrite !for_each_cons.
  destruct (Hslots 1) as (?&?&?&?&?); [lia|].
  destruct (Hslots 2) as (?&?&?&?&?); [lia|].
  destruct (Hslots 3) as (?&?&?&?&?); [lia|].
  destruct (Hslots 4) as (?&?&?&?&?); [lia|].
  rewrite (disk_step_ok w container 0 0 1 (size 1) (count 1)) by done. cbn -[disk_step].
  rewrite (disk_step_ok w container _ _ 2 (size 2) (count 2)) by done. cbn -[disk_step].
  rewrite (disk_step_ok w container _ _ 3 (size 3) (count 3)) by done. cbn -[disk_step].
  rewrite (disk_step_ok w container _ _ 4 (size 4) (count 4)) by done. cbn.
  destruct (if (returncode (w (LogsCacheStatus container)) =? 0)
               && PyStr.truthy (stdout (w (LogsCacheStatus container)))
            then _ else _) as [h m].
  eexists. split; [done|]. simpl. lia.
Qed.

Lemma default_slots_witness :
  detect_disks world_unlisted "tc-nginx-nginx-cache-1-1" = Ok [] ∧
  ∃ s, sample_container world_unlisted "tc-nginx-nginx-cache-1-1" = Ok s ∧
    cache_size s = 100 ∧ object_count s = 10.
Proof.
  split; [reflexivity|].
  destruct (default_slots_are_summed world_unlisted "tc-nginx-nginx-cache-1-1"
              (λ d, 10 * d) (λ d, d)) as (s & Hs & Hsize & Hcount).
  - reflexivity.
  - intros d Hd.
    assert (d = 1 ∨ d = 2 ∨ d = 3 ∨ d = 4) as [->|[->|[->| ->]]] by lia;
      by vm_compute.
  - exists s. by repeat split.
Defined.

(** *** The network sampler on a complete line *)

(** A counter section of ten fields or more, the first, second, ninth
    and tenth being numbers, is recorded with these four numbers as
    received bytes, received packets, sent bytes and sent packets. *)
Theorem network_record_of_complete_line (w : world) (node : Z) (rest : string)
    (rxb rxp txb txp : Z) :
  1 ≤ node ≤ 4 →
  let result := w (NetDev (container_of_ordinal node)) in
  let line := PyStr.strip (stdout result) in
  let parts := PyStr.split_ws (PyStr.strip rest) in
  returncode result = 0 → PyStr.truthy (stdout result) = true →
  PyStr.contains ":" line = true →
  PyStr.split_max ":" 1 line !! 1%nat = Some rest →
  (10 ≤ length parts)%nat →
  (p ← index parts 0; int p) = Ok rxb →
  (p ← index parts 1; int p) = Ok rxp →
  (p ← index parts 8; int p) = Ok txb →
  (p ← index parts 9; int p) = Ok txp →
  ∃ net_stats,
    get_network_stats w = Ok net_stats ∧
    dict_get (node_of_ordinal node) net_stats = Some (NetStat rxb rxp txb txp).
Proof.
  intros Hnode result line parts Hrc Htruthy Hcolon Hrest Hlen H0 H1 H8 H9.
  exists (net_stats_of w). split; [apply get_network_stats_eq|].
  rewrite net_stats_of_get by done. f_equal.
  unfold net_record, read_net. fold result. rewrite Hrc, Htruthy. cbn [andb].
  fold line. rewrite Hcolon, (index_Some _ _ _ Hrest). cbn [mbind exc_bind].
  fold parts.
  destruct (Nat.leb_spec 9 (length parts)) as [_|Hshort]; [|lia].
  destruct (index parts 0) as [p0|]; simpl in H0; [|done].
  destruct (index parts 1) as [p1|]; simpl in H1; [|done].
  destruct (index parts 8) as [p8|]; simpl in H8; [|done].
  destruct (index parts 9) as [p9|]; simpl in H9; [|done].
  simpl. rewrite H0. simpl. rewrite H1. simpl. rewrite H8. simpl. by rewrite H9.
Qed.

Lemma network_record_witness :
  1 ≤ 1 ≤ 4 ∧
  ∃ net_stats,
    get_network_stats world_demo = Ok net_stats ∧
    dict_get "nginx-cache-1" net_stats = Some (NetStat 100 2 300 4).
Proof.
  split; [lia|].
  destruct (network_record_of_complete_line world_demo 1
              " 100 2 0 0 0 0 0 0 300 4 0 0 0 0 0 0" 100 2 300 4)
    as (ns & Hns & Hget); try reflexivity; [lia|vm_compute; lia|].
  exists ns. by split.
Defined.

(** A node whose interface read exits non-zero, prints nothing, prints a
    line without a colon, or prints fewer than nine counters is recorded
    as all zero; no exception is involved. *)
Theorem network_record_of_short_line (w : world) (node : Z) :
  1 ≤ node ≤ 4 →
  let result := w (NetDev (container_of_ordinal node)) in
  let line := PyStr.strip (stdout result) in
  returncode result ≠ 0 ∨ stdout result = EmptyString ∨
  PyStr.contains ":" line = false ∨
  (∃ rest, PyStr.split_max ":" 1 line !! 1%nat = Some rest ∧
     (length (PyStr.split_ws (PyStr.strip rest)) < 9)%nat) →
  read_net w (container_of_ordinal node) = Ok zero_net_stat ∧
  ∃ net_stats,
    get_network_stats w = Ok net_stats ∧
    dict_get (node_of_ordinal node) net_stats = Some zero_net_stat.
Proof.
  intros Hnode result line Hcases.
  assert (read_net w (container_of_ordinal node) = Ok zero_net_stat) as Hread.
  { unfold read_net. fold result.
    destruct Hcases as [Hrc|[Hempty|[Hcolon|(rest & Hrest & Hlen)]]].
    - by destruct (Z.eqb_spec (returncode result) 0).
    - rewrite Hempty. by rewrite andb_false_r.
    - destruct ((returncode result =? 0) && PyStr.truthy (stdout result)); [|done].
      fold line. by rewrite Hcolon.
    - destruct ((returncode result =? 0) && PyStr.truthy (stdout result)); [|done].
      fold line. destruct (PyStr.contains ":" line); [|done].
      rewrite (index_Some _ _ _ Hrest). cbn [mbind exc_bind].
      by destruct (Nat.leb_spec 9 (length (PyStr.split_ws (PyStr.strip rest))));
        [lia|]. }
  split; [done|].
  exists (net_stats_of w). split; [apply get_network_stats_eq|].
  rewrite net_stats_of_get by done. unfold net_record. by rewrite Hread.
Qed.

Lemma network_record_short_witness :
  1 ≤ 3 ≤ 4 ∧ returncode (world_demo (NetDev "tc-nginx-nginx-cache-3-1")) ≠ 0 ∧
  ∃ net_stats,
    get_network_stats world_demo = Ok net_stats ∧
    dict_get "nginx-cache-3" net_stats = Some zero_net_stat.
Proof.
  split; [lia|]. split; [done|].
  destruct (network_record_of_short_line world_demo 3) as (_ & ns & Hns & Hget);
    [lia|by left|].
  exists ns. by split.
Defined.

(** ** Further properties of a cycle *)

(** *** Reading back what a cycle wrote *)

Lemma lookup_apply_writes ws reg k :
  apply_writes ws reg !! k
  = match last_write k ws with Some v => Some v | None => reg !! k end.
Proof.
  revert reg. induction ws as [|[k' v] ws IH]; intros reg; [done|].
  cbn [apply_writes last_write]. rewrite IH.
  destruct (last_write k ws); [done|].
  destruct (decide (k' = k)) as [->|Hne].
  - apply lookup_insert_eq.
  - by apply lookup_insert_ne.
Qed.

Lemma apply_writes_idempotent ws reg :
  apply_writes ws (apply_writes ws reg) = apply_writes ws reg.
Proof.
  apply map_eq. intros k. rewrite (lookup_apply_writes ws (apply_writes ws reg)).
  rewrite lookup_apply_writes. by destruct (last_write k ws).
Qed.

(** Publishing overwrites and keeps no history: a second cycle in the
    same world leaves the registry exactly as the first one left it. *)
Theorem second_cycle_changes_nothing (w : world) (reg reg' : registry) :
  update_metrics w reg = Done () reg' → update_metrics w reg' = Done () reg'.
Proof.
  intros Hdone.
  destruct (update_metrics_cases w reg) as [(ds & Hds & Hreg)|[_ Hfailed]];
    [|congruence].
  rewrite Hreg in Hdone. simplify_eq.
  rewrite (update_metrics_done _ _ _ Hds). by rewrite apply_writes_idempotent.
Qed.

Lemma second_cycle_witness :
  ∃ reg',
    update_metrics world_demo ∅ = Done () reg' ∧
    update_metrics world_demo reg' = Done () reg'.
Proof.
  destruct (update_metrics_cases world_demo ∅) as [(ds & _ & H)|[H _]];
    [|by vm_compute in H].
  eexists. split; [exact H|]. exact (second_cycle_changes_nothing _ _ _ H).
Defined.

(** A cycle never removes a series: whatever existed before it exists
    after it, whether the cycle ends normally or fails. *)
Theorem series_are_never_removed (w : world) (reg reg' : registry) (k : series) :
  (update_metrics w reg = Done () reg' ∨ ∃ e, update_metrics w reg = Failed e reg') →
  is_Some (reg !! k) → is_Some (reg' !! k).
Proof.
  intros Hupd Hk.
  destruct (update_metrics_cases w reg) as [(ds & _ & Hdone)|[_ Hfailed]].
  - destruct Hupd as [Hupd|[e Hupd]]; [|congruence].
    rewrite Hdone in Hupd. simplify_eq. rewrite lookup_apply_writes.
    by destruct (last_write k _).
  - destruct Hupd as [Hupd|[e Hupd]]; [congruence|].
    rewrite Hfailed in Hupd. by simplify_eq.
Qed.

(** The cache series of a node outside 1..4 that is no longer discovered
    are left with the values of the last cycle that saw it. *)
Theorem vanished_node_keeps_last_values (w : world) (reg : registry)
    (docker_stats : dict cache_stats) (n : string) :
  get_docker_cache_stats w = Ok docker_stats →
  is_node_name n → dict_get n docker_stats = None →
  (∀ i, 1 ≤ i ≤ 4 → n ≠ node_of_ordinal i) →
  ∃ reg',
    update_metrics w reg = Done () reg' ∧
    ∀ k, k ∈ node_series n → reg' !! k = reg !! k.
Proof.
  intros Hds Hname Hnone Hord.
  eexists. split; [by apply update_metrics_done|].
  intros k Hk. apply (cycle_lookup_untouched _ _ _ _ n); try done.
  intros i Hi. apply Hord. unfold node_ordinals in Hi.
  rewrite !elem_of_cons, elem_of_nil in Hi. lia.
Qed.

(** A fifth node was published by earlier cycles and is not running in
    [world_demo]: its used bytes still read 500 after the cycle. *)
Lemma vanished_node_witness :
  ∃ docker_stats reg',
    get_docker_cache_stats world_demo = Ok docker_stats ∧
    dict_get "nginx-cache-5" docker_stats = None ∧
    update_metrics world_demo registry_with_fifth = Done () reg' ∧
    reg' !! series2 cache_used_bytes "nginx-cache-5" "cache" = Some 500%Q.
Proof.
  destruct (vanished_node_keeps_last_values world_demo registry_with_fifth
              (docker_stats_of world_demo) "nginx-cache-5")
    as (reg' & Hreg & Hsame).
  - reflexivity.
  - reflexivity.
  - reflexivity.
  - intros i Hi.
    assert (i = 1 ∨ i = 2 ∨ i = 3 ∨ i = 4) as [->|[->|[->| ->]]] by lia;
      by vm_compute.
  - exists (docker_stats_of world_demo), reg'.
    split; [reflexivity|]. split; [reflexivity|]. split; [done|].
    rewrite Hsame; [reflexivity|].
    unfold node_series, zero_writes. simpl. rewrite !elem_of_cons. tauto.
Defined.

(** *** Disk and network series *)

Lemma disk_writes_labels d s k v :
  (k, v) ∈ disk_writes (d, s) → k.2 = ["physical"; d] ∧ cache_metric k.
Proof.
  intros Hk. unfold disk_writes in Hk.
  repeat (apply elem_of_cons in Hk as [Heq|Hk]); try (by apply elem_of_nil in Hk);
    by simplify_eq.
Qed.

Lemma disk_writes_functional d s k v v' :
  (k, v) ∈ disk_writes (d, s) → (k, v') ∈ disk_writes (d, s) → v = v'.
Proof.
  apply writes_functional. simpl.
  apply (bool_decide_unpack (NoDup _)). by vm_compute.
Qed.

Lemma net_writes_labels iface s k v : (k, v) ∈ net_writes (iface, s) → k.2 = [iface].
Proof.
  intros Hk. unfold net_writes in Hk.
  repeat (apply elem_of_cons in Hk as [Heq|Hk]); try (by apply elem_of_nil in Hk);
    by simplify_eq.
Qed.

Lemma net_writes_functional iface s k v v' :
  (k, v) ∈ net_writes (iface, s) → (k, v') ∈ net_writes (iface, s) → v = v'.
Proof.
  apply writes_functional. simpl.
  apply (bool_decide_unpack (NoDup _)). by vm_compute.
Qed.

Lemma disk_stats_of_elem w d s :
  (d, s) ∈ disk_stats_of w → ∃ p, dict_get d disk_mounts = Some p ∧ s = disk_record w p.
Proof.
  unfold disk_stats_of, disk_mounts. simpl. rewrite !elem_of_cons, elem_of_nil.
  intros [H|[H|[H|[H|[]]]]]; simplify_eq; by eexists.
Qed.

Lemma net_stats_of_elem w iface s :
  (iface, s) ∈ net_stats_of w →
  ∃ i, 1 ≤ i ≤ 4 ∧ iface = node_of_ordinal i
       ∧ s = net_record w (container_of_ordinal i).
Proof.
  unfold net_stats_of, node_ordinals. simpl. rewrite !elem_of_cons, elem_of_nil.
  intros [H|[H|[H|[H|[]]]]]; simplify_eq; eexists; (split; [|by split]); lia.
Qed.

Lemma node_of_ordinal_inj i j :
  1 ≤ i ≤ 4 → 1 ≤ j ≤ 4 → node_of_ordinal i = node_of_ordinal j → i = j.
Proof.
  intros Hi Hj.
  assert (i = 1 ∨ i = 2 ∨ i = 3 ∨ i = 4) as [->|[->|[->| ->]]] by lia;
    assert (j = 1 ∨ j = 2 ∨ j = 3 ∨ j = 4) as [->|[->|[->| ->]]] by lia;
    by vm_compute.
Qed.

(** After a cycle the three series of every configured disk, under node
    [physical] and the disk's label, hold the used bytes, the total bytes
    and the percentage of the disk sampler's record, unchanged. *)
Theorem disk_series_are_published_verbatim (w : world) (reg : registry)
    (docker_stats : dict cache_stats) (disk_name mount_path : string) :
  get_docker_cache_stats w = Ok docker_stats →
  dict_get disk_name disk_mounts = Some mount_path →
  ∃ reg',
    update_metrics w reg = Done () reg' ∧
    reg' !! series2 cache_used_bytes "physical" disk_name
      = Some (inject_Z (used (disk_record w mount_path))) ∧
    reg' !! series2 cache_total_bytes "physical" disk_name
      = Some (inject_Z (total (disk_record w mount_path))) ∧
    reg' !! series2 cache_usage_percent "physical" disk_name
      = Some (percent (disk_record w mount_path)).
Proof.
  intros Hds Hmount. destruct (get_docker_cache_stats_keys _ _ Hds) as [Hnames _].
  eexists. split; [by apply update_metrics_done|].
  assert ((disk_name, disk_record w mount_path) ∈ disk_stats_of w) as Hitem.
  { apply dict_get_elem. by apply disk_stats_of_get. }
  assert (∀ k v, (k, v) ∈ disk_writes (disk_name, disk_record w mount_path) →
            apply_writes (cycle_writes docker_stats (disk_stats_of w) (net_stats_of w))
              reg !! k = Some v) as Hdisk.
  { intros k v Hkv. destruct (disk_writes_labels _ _ _ _ Hkv) as [Hlabels Hmetric].
    apply lookup_apply_writes_unique.
    - unfold cycle_writes. rewrite !elem_of_app, !elem_of_flat_map.
      right; right; left. by exists (disk_name, disk_record w mount_path).
    - intros v' Hin.
      unfold cycle_writes in Hin. rewrite !elem_of_app, !elem_of_flat_map in Hin.
      destruct Hin as [(i & Hi & Hin)|[([n' s] & Hitem' & Hin)|[([d s] & Hd & Hin)
                      |[Hin|([iface s] & _ & Hin)]]]].
      + unfold zero_fill_writes in Hin. destruct (dict_mem _ _);
          [by apply elem_of_nil in Hin|].
        apply zero_writes_value in Hin as [_ Hk'].
        apply node_series_head in Hk' as [Hhead' _].
        unfold head_label in Hhead'. rewrite Hlabels in Hhead'. simpl in Hhead'.
        destruct not_node_name_physical.
        replace "physical" with (node_of_ordinal i) by congruence.
        apply is_node_name_ordinal.
      + assert (k ∈ node_series n') as Hk'.
        { rewrite <- (node_writes_keys n' s). apply list_elem_of_fmap. by exists (k, v'). }
        apply node_series_head in Hk' as [Hhead' _].
        unfold head_label in Hhead'. rewrite Hlabels in Hhead'. simpl in Hhead'.
        destruct not_node_name_physical. replace "physical" with n' by congruence.
        eapply Forall_forall in Hnames; [done|]. apply list_elem_of_fmap. by exists (n', s).
      + destruct (disk_writes_labels _ _ _ _ Hin) as [Hlabels' _].
        assert (d = disk_name) as -> by congruence.
        destruct (disk_stats_of_elem _ _ _ Hd) as (p & Hp & ->).
        assert (p = mount_path) as -> by congruence.
        by eapply disk_writes_functional.
      + assert (k ∈ aggregate_series) as Hk'.
        { rewrite <- (aggregate_writes_keys (sum_of cache_size docker_stats)
            (sum_of total (disk_stats_of w)) (sum_of hits docker_stats)
            (sum_of misses docker_stats)).
          apply list_elem_of_fmap. by exists (k, v'). }
        apply aggregate_series_head in Hk' as [Hhead' _].
        unfold head_label in Hhead'. rewrite Hlabels in Hhead'. done.
      + by apply net_writes_metric in Hin. }
  repeat split; apply Hdisk; unfold disk_writes; rewrite !elem_of_cons; tauto.
Qed.

Lemma disk_series_witness :
  ∃ docker_stats reg',
    get_docker_cache_stats world_demo = Ok docker_stats ∧
    update_metrics world_demo ∅ = Done () reg' ∧
    reg' !! series2 cache_used_bytes "physical" "disk1" = Some 250%Q ∧
    reg' !! series2 cache_total_bytes "physical" "disk1" = Some 1000%Q.
Proof.
  destruct (disk_series_are_published_verbatim world_demo ∅
              (docker_stats_of world_demo) "disk1" "/mnt/disk1")
    as (reg' & Hreg & Hused & Htotal & _); [reflexivity..|].
  exists (docker_stats_of world_demo), reg'.
  split; [reflexivity|]. split; [done|]. split; [exact Hused|exact Htotal].
Defined.

(** After a cycle the four network series of every ordinal 1..4 hold the
    counters of the network sampler's record; the value of their
    [interface] label is the node name. *)
Theorem network_series_are_published_verbatim (w : world) (reg : registry)
    (docker_stats : dict cache_stats) (i : Z) :
  get_docker_cache_stats w = Ok docker_stats →
  1 ≤ i ≤ 4 →
  let r := net_record w (container_of_ordinal i) in
  ∃ reg',
    update_metrics w reg = Done () reg' ∧
    reg' !! series1 network_rx_bytes (node_of_ordinal i) = Some (inject_Z (rx_bytes r)) ∧
    reg' !! series1 network_tx_bytes (node_of_ordinal i) = Some (inject_Z (tx_bytes r)) ∧
    reg' !! series1 network_rx_packets (node_of_ordinal i)
      = Some (inject_Z (rx_packets r)) ∧
    reg' !! series1 network_tx_packets (node_of_ordinal i)
      = Some (inject_Z (tx_packets r)).
Proof.
  intros Hds Hi r.
  eexists. split; [by apply update_metrics_done|].
  assert ((node_of_ordinal i, r) ∈ net_stats_of w) as Hitem.
  { apply dict_get_elem. by apply net_stats_of_get. }
  assert (∀ k v, (k, v) ∈ net_writes (node_of_ordinal i, r) →
            apply_writes (cycle_writes docker_stats (disk_stats_of w) (net_stats_of w))
              reg !! k = Some v) as Hnet.
  { intros k v Hkv. pose proof (net_writes_metric _ _ _ _ Hkv) as Hmetric.
    pose proof (net_writes_labels _ _ _ _ Hkv) as Hlabels.
    apply lookup_apply_writes_unique.
    - unfold cycle_writes. rewrite !elem_of_app, !elem_of_flat_map.
      right; right; right; right. by exists (node_of_ordinal i, r).
    - intros v' Hin.
      unfold cycle_writes in Hin. rewrite !elem_of_app, !elem_of_flat_map in Hin.
      destruct Hin as [(j & Hj & Hin)|[([n' s] & Hitem' & Hin)|[([d s] & Hd & Hin)
                      |[Hin|([iface s] & Hiface & Hin)]]]].
      + unfold zero_fill_writes in Hin. destruct (dict_mem _ _);
          [by apply elem_of_nil in Hin|].
        apply zero_writes_value in Hin as [_ Hk'].
        by apply node_series_head in Hk' as [_ Hm].
      + assert (k ∈ node_series n') as Hk'.
        { rewrite <- (node_writes_keys n' s). apply list_elem_of_fmap. by exists (k, v'). }
        by apply node_series_head in Hk' as [_ Hm].
      + by destruct (disk_writes_labels _ _ _ _ Hin) as [_ Hm].
      + assert (k ∈ aggregate_series) as Hk'.
        { rewrite <- (aggregate_writes_keys (sum_of cache_size docker_stats)
            (sum_of total (disk_stats_of w)) (sum_of hits docker_stats)
            (sum_of misses docker_stats)).
          apply list_elem_of_fmap. by exists (k, v'). }
        by apply aggregate_series_head in Hk' as [_ Hm].
      + pose proof (net_writes_labels _ _ _ _ Hin) as Hlabels'.
        destruct (net_stats_of_elem _ _ _ Hiface) as (j & Hj & -> & ->).
        assert (j = i) as ->.
        { apply node_of_ordinal_inj; [done..|congruence]. }
        by eapply net_writes_functional. }
  repeat split; apply Hnet; unfold net_writes; rewrite !elem_of_cons; tauto.
Qed.

Lemma network_series_witness :
  1 ≤ 1 ≤ 4 ∧
  ∃ docker_stats reg',
    get_docker_cache_stats world_demo = Ok docker_stats ∧
    update_metrics world_demo ∅ = Done () reg' ∧
    reg' !! series1 network_rx_bytes "nginx-cache-1" = Some 100%Q ∧
    reg' !! series1 network_tx_packets "nginx-cache-1" = Some 4%Q.
Proof.
  split; [lia|].
  destruct (network_series_are_published_verbatim world_demo ∅
              (docker_stats_of world_demo) 1)
    as (reg' & Hreg & Hrxb & _ & _ & Htxp); [reflexivity|lia|].
  exists (docker_stats_of world_demo), reg'.
  split; [reflexivity|]. split; [done|]. split; [exact Hrxb|exact Htxp].
Defined.

(** *** What the aggregate leaves out *)

(** The object counts are summed over the nodes but the sum is never
    published: a cycle does not write the object-count series of node
    [all]. *)
Theorem aggregate_object_count_is_not_published (w : world) (reg reg' : registry) :
  update_metrics w reg = Done () reg' →
  reg' !! series1 cache_object_count "all" = reg !! series1 cache_object_count "all".
Proof.
  intros Hdone.
  destruct (update_metrics_cases w reg) as [(ds & Hds & Hreg)|[_ Hfailed]];
    [|congruence].
  rewrite Hreg in Hdone. simplify_eq.
  destruct (get_docker_cache_stats_keys _ _ Hds) as [Hnames _].
  apply lookup_apply_writes_notin.
  intros Hin. apply list_elem_of_fmap in Hin as [[k v] [Heq Hin]]. simpl in Heq. subst k.
  unfold cycle_writes in Hin. rewrite !elem_of_app, !elem_of_flat_map in Hin.
  destruct Hin as [(i & Hi & Hin)|[([n' s] & Hitem' & Hin)|[([d s] & Hd & Hin)
                  |[Hin|([iface s] & Hiface & Hin)]]]].
  - unfold zero_fill_writes in Hin. destruct (dict_mem _ _);
      [by apply elem_of_nil in Hin|].
    apply zero_writes_value in Hin as [_ Hk'].
    apply node_series_head in Hk' as [Hhead' _].
    destruct not_node_name_all.
    replace "all" with (node_of_ordinal i)
      by (unfold head_label in Hhead'; simpl in Hhead'; congruence).
    apply is_node_name_ordinal.
  - assert (series1 cache_object_count "all" ∈ node_series n') as Hk'.
    { rewrite <- (node_writes_keys n' s). apply list_elem_of_fmap.
      by exists (series1 cache_object_count "all", v). }
    apply node_series_head in Hk' as [Hhead' _].
    destruct not_node_name_all.
    replace "all" with n' by (unfold head_label in Hhead'; simpl in Hhead'; congruence).
    eapply Forall_forall in Hnames; [done|]. apply list_elem_of_fmap. by exists (n', s).
  - by destruct (disk_writes_labels _ _ _ _ Hin) as [? _].
  - unfold aggregate_writes in Hin.
    repeat (apply elem_of_cons in Hin as [Heq|Hin]); try (by apply elem_of_nil in Hin);
      discriminate Heq.
  - by apply net_writes_metric in Hin.
Qed.

Lemma aggregate_object_count_witness :
  ∃ reg',
    update_metrics world_demo ∅ = Done () reg' ∧
    reg' !! series1 cache_object_count "all" = None ∧
    reg' !! series1 cache_object_count "nginx-cache-1" = Some 100%Q.
Proof.
  pose proof (update_metrics_done world_demo (docker_stats_of world_demo) ∅ eq_refl) as H.
  eexists. split; [exact H|]. split.
  - rewrite (aggregate_object_count_is_not_published _ _ _ H). apply lookup_empty.
  - by vm_compute.
Defined.

(** *** No container running *)

(** When the discovery command prints nothing the cache sampler returns
    the empty dictionary without an error, and the cycle publishes 0 for
    all seven series of every ordinal 1..4 and for the aggregate used
    bytes, hits, misses, hit ratio and usage percent. *)
Theorem empty_discovery_publishes_zeros (w : world) (reg : registry) :
  PyStr.strip (stdout (w DockerPs)) = EmptyString →
  get_docker_cache_stats w = Ok [] ∧
  ∃ reg' pct,
    update_metrics w reg = Done () reg' ∧
    (∀ i k, 1 ≤ i ≤ 4 → k ∈ node_series (node_of_ordinal i) → reg' !! k = Some 0%Q) ∧
    reg' !! series2 cache_used_bytes "all" "total" = Some 0%Q ∧
    reg' !! series1 cache_hits "all" = Some 0%Q ∧
    reg' !! series1 cache_misses "all" = Some 0%Q ∧
    reg' !! series1 cache_hit_ratio "all" = Some 0%Q ∧
    reg' !! series2 cache_usage_percent "all" "total" = Some pct ∧ (pct == 0)%Q.
Proof.
  intros Hempty.
  assert (containers w = []) as Hnone by (unfold containers; by rewrite Hempty).
  assert (get_docker_cache_stats w = Ok []) as Hds
    by (unfold get_docker_cache_stats; by rewrite Hnone).
  split; [done|].
  exists (apply_writes (cycle_writes [] (disk_stats_of w) (net_stats_of w)) reg),
    (percent_if (0 <? sum_of total (disk_stats_of w)) 0 (sum_of total (disk_stats_of w))).
  split; [by apply update_metrics_done|]. split.
  - intros i k Hi Hk. apply (cycle_lookup_absent _ _ _ _ i); [by apply ordinal_cases|done..].
  - assert (∀ k v, (k, v) ∈ aggregate_writes 0 (sum_of total (disk_stats_of w)) 0 0 →
              apply_writes (cycle_writes [] (disk_stats_of w) (net_stats_of w)) reg !! k
              = Some v) as Hagg.
    { intros k v Hkv. apply cycle_lookup_aggregate; [constructor|done]. }
    split; [apply Hagg; unfold aggregate_writes; rewrite !elem_of_cons; tauto|].
    split; [apply Hagg; unfold aggregate_writes; rewrite !elem_of_cons; tauto|].
    split; [apply Hagg; unfold aggregate_writes; rewrite !elem_of_cons; tauto|].
    split; [apply Hagg; unfold aggregate_writes; rewrite !elem_of_cons; tauto|].
    split; [apply Hagg; unfold aggregate_writes; rewrite !elem_of_cons; tauto|].
    unfold percent_if. destruct (0 <? sum_of total (disk_stats_of w)); [|reflexivity].
    unfold Qeq, Qdiv, Qmult, Qinv, inject_Z. simpl. lia.
Qed.

Lemma empty_discovery_witness :
  PyStr.strip (stdout (world_idle DockerPs)) = EmptyString ∧
  ∃ reg',
    update_metrics world_idle ∅ = Done () reg' ∧
    reg' !! series1 cache_hit_ratio "nginx-cache-1" = Some 0%Q ∧
    reg' !! series2 cache_used_bytes "all" "total" = Some 0%Q.
Proof.
  split; [reflexivity|].
  destruct (empty_discovery_publishes_zeros world_idle ∅)
    as (_ & reg' & pct & Hreg & Hnodes & Hused & _); [reflexivity|].
  exists reg'. split; [done|]. split; [|done].
  apply (Hnodes 1); [lia|].
  unfold node_series, zero_writes. simpl. rewrite !elem_of_cons. tauto.
Defined.

(** The used-bytes series of the fifth node outlives a cycle in which the
    node is not seen. *)
Lemma series_never_removed_witness :
  is_Some (registry_with_fifth !! series2 cache_used_bytes "nginx-cache-5" "cache") ∧
  ∃ reg',
    update_metrics world_demo registry_with_fifth = Done () reg' ∧
    is_Some (reg' !! series2 cache_used_bytes "nginx-cache-5" "cache").
Proof.
  assert (is_Some (registry_with_fifth !! series2 cache_used_bytes "nginx-cache-5" "cache"))
    as Hbefore by (by exists 500%Q).
  split; [done|].
  pose proof (update_metrics_done world_demo (docker_stats_of world_demo)
                registry_with_fifth eq_refl) as H.
  eexists. split; [exact H|].
  exact (series_are_never_removed _ _ _ _ (or_introl H) Hbefore).
Defined.

(** ** Failures of the cache sampler, step by step *)

(** What one slot adds to the sums, by the answers of the two commands:
    the size command is skipped when it exits non-zero or prints nothing,
    the count pipeline when it exits non-zero; a command that is not
    skipped adds the number it prints, and raises when what it prints is
    not a number. *)
Lemma disk_step_by_cases w container disk cs oc :
  let du := w (DuDisk container disk) in
  let fc := w (FindCount container disk) in
  let size := (p ← index (PyStr.split_ws (PyStr.strip (stdout du))) 0; int p) in
  let count := int (PyStr.strip (stdout fc)) in
  let du_skipped := returncode du ≠ 0 ∨ PyStr.strip (stdout du) = EmptyString in
  let du_read := returncode du = 0 ∧ PyStr.strip (stdout du) ≠ EmptyString in
  (du_skipped → returncode fc ≠ 0 →
     disk_step w container (cs, oc) disk = Ok (cs, oc)) ∧
  (du_skipped → returncode fc = 0 → ∀ k, count = Ok k →
     disk_step w container (cs, oc) disk = Ok (cs, oc + k)) ∧
  (du_read → ∀ n, size = Ok n → returncode fc ≠ 0 →
     disk_step w container (cs, oc) disk = Ok (cs + n, oc)) ∧
  (du_read → ∀ n, size = Ok n → returncode fc = 0 → ∀ k, count = Ok k →
     disk_step w container (cs, oc) disk = Ok (cs + n, oc + k)) ∧
  (du_read → ∀ e, size = Raise e →
     disk_step w container (cs, oc) disk = Raise e) ∧
  (returncode fc = 0 → ∀ e, count = Raise e →
     ∃ e', disk_step w container (cs, oc) disk = Raise e').
Proof.
  intros du fc size count du_skipped du_read.
  assert (du_skipped →
            (returncode du =? 0) && PyStr.truthy (PyStr.strip (stdout du)) = false)
    as Hskip.
  { intros [Hrc|Hempty].
    - by destruct (Z.eqb_spec (returncode du) 0).
    - rewrite Hempty. apply andb_false_r. }
  assert (du_read →
            (returncode du =? 0) && PyStr.truthy (PyStr.strip (stdout du)) = true)
    as Hread.
  { intros [Hrc Hne]. rewrite Hrc. simpl. by destruct (PyStr.strip (stdout du)). }
  assert (returncode fc ≠ 0 → (returncode fc =? 0) = false) as Hfc
    by (intros H; by destruct (Z.eqb_spec (returncode fc) 0)).
  unfold disk_step. fold du fc. subst size count.
  destruct (index (PyStr.split_ws (PyStr.strip (stdout du))) 0) as [p|e0];
    cbn [mbind exc_bind];
    [destruct (int p) as [n0|e0]|];
    destruct (int (PyStr.strip (stdout fc))) as [k0|e1];
    repeat split; intros;
    repeat match goal with
      | H : du_skipped |- _ => rewrite (Hskip H)
      | H : du_read |- _ => rewrite (Hread H)
      | H : returncode fc ≠ 0 |- _ => rewrite (Hfc H)
      | H : returncode fc = 0 |- _ => rewrite H
      end;
    cbn [mbind exc_bind] in *; simplify_eq; try done;
    destruct ((returncode du =? 0) && PyStr.truthy (PyStr.strip (stdout du)));
    cbn [mbind exc_bind]; by eexists.
Qed.

(** Whether a slot raises does not depend on the sums so far. *)
Lemma disk_step_raises_anywhere w container disk acc acc' e :
  disk_step w container acc disk = Raise e →
  ∃ e', disk_step w container acc' disk = Raise e'.
Proof.
  destruct acc as [cs oc], acc' as [cs' oc']. unfold disk_step.
  destruct ((returncode (w (DuDisk container disk)) =? 0)
            && PyStr.truthy (PyStr.strip (stdout (w (DuDisk container disk))))).
  - destruct (index _ 0) as [p|e0]; simpl; [|by eexists].
    destruct (int p) as [n|e0]; simpl; [|by eexists].
    destruct (returncode (w (FindCount container disk)) =? 0); simpl; [|done].
    destruct (int _) as [k|e0]; simpl; [done|by eexists].
  - simpl. destruct (returncode (w (FindCount container disk)) =? 0); simpl; [|done].
    destruct (int _) as [k|e0]; simpl; [done|by eexists].
Qed.

Lemma slots_loop_raises w container disks disk acc :
  disk ∈ disks →
  (∃ acc0 e, disk_step w container acc0 disk = Raise e) →
  ∃ e, for_each (disk_step w container) disks acc = Raise e.
Proof.
  intros Hin (acc0 & e0 & Hraise). revert acc.
  induction disks as [|d disks IH]; intros acc; [by apply elem_of_nil in Hin|].
  rewrite for_each_cons.
  destruct (disk_step w container acc d) as [acc1|e1] eqn:E; simpl; [|by eexists].
  apply elem_of_cons in Hin as [->|Hin]; [|by apply IH].
  destruct (disk_step_raises_anywhere _ _ _ _ acc _ Hraise) as [e' He']. congruence.
Qed.

Lemma slots_loop_sums w container disks (size count : Z → Z) cs oc :
  (∀ d cs oc, d ∈ disks →
     disk_step w container (cs, oc) d = Ok (cs + size d, oc + count d)) →
  for_each (disk_step w container) disks (cs, oc)
  = Ok (cs + foldr (λ d acc, size d + acc) 0 disks,
        oc + foldr (λ d acc, count d + acc) 0 disks).
Proof.
  revert cs oc. induction disks as [|d disks IH]; intros cs oc Hstep.
  - simpl. by rewrite !Z.add_0_r.
  - rewrite for_each_cons, Hstep by left. simpl.
    rewrite IH by (intros; apply Hstep; by right).
    by rewrite !Z.add_assoc.
Qed.

(** The sample of a container in terms of its slots and of its log. *)
Lemma sample_container_by_slots w container available :
  detect_disks w container = Ok available →
  let disks := match available with [] => [1; 2; 3; 4] | _ => available end in
  let logs := w (LogsCacheStatus container) in
  (∀ size count : Z → Z,
     (∀ d cs oc, d ∈ disks →
        disk_step w container (cs, oc) d = Ok (cs + size d, oc + count d)) →
     ∃ s, sample_container w container = Ok s ∧
       cache_size s = foldr (λ d acc, size d + acc) 0 disks ∧
       object_count s = foldr (λ d acc, count d + acc) 0 disks ∧
       (returncode logs ≠ 0 ∨ stdout logs = EmptyString → hits s = 0 ∧ misses s = 0) ∧
       (returncode logs = 0 → stdout logs ≠ EmptyString →
          (hits s, misses s)
          = fold_left count_step (PyStr.splitlines (stdout logs)) (0, 0))) ∧
  (∀ d, d ∈ disks →
     (∃ acc e, disk_step w container acc d = Raise e) →
     ∃ e, sample_container w container = Raise e).
Proof.
  intros Hdetect disks logs. split.
  - intros size count Hstep. unfold sample_container. rewrite Hdetect.
    cbn [mbind exc_bind]. fold disks.
    rewrite (slots_loop_sums w container disks size count 0 0 Hstep).
    cbn [mbind exc_bind]. fold logs.
    destruct (fold_left count_step (PyStr.splitlines (stdout logs)) (0, 0))
      as [h m] eqn:Efold.
    destruct (Z.eqb_spec (returncode logs) 0) as [Hrc|Hrc];
      destruct (stdout logs) as [|a out] eqn:Eout; simpl;
      (eexists; split; [done|]);
      cbn [cache_size object_count hits misses]; rewrite !Z.add_0_l;
      repeat split; try done;
      try match goal with
          | Hor : _ ∨ _ |- _ => destruct Hor as [Hx|Hx]; [done|discriminate Hx]
          end.
  - intros d Hd Hraise. unfold sample_container. rewrite Hdetect.
    cbn [mbind exc_bind]. fold disks.
    destruct (slots_loop_raises w container disks d (0, 0) Hd Hraise) as [e ->].
    by exists e.
Qed.

(** C6, amended.  No failure of a cache-sampling step propagates: the
    sampler returns, with a record for every discovered container, and
    the cycle ends normally.  The record of a node is decided by the
    container listed last for it: its sample, or the all-zero record when
    a step of its sampling raises.  Within a sample, a command that exits
    non-zero is skipped: it adds nothing, and what the other commands
    print is kept in the sums; a command that ends normally and prints
    something that is not a number raises, and so does the whole sample.
    A container none of whose commands succeeds is sampled as all zero.
    Whatever the commands run against one container answer, the records
    and the published cache series of every other node are the same. *)
Theorem C6_sampler_failure_is_contained (w : world) (reg : registry) :
  discovery_ok w = true →
  ∃ docker_stats reg',
    get_docker_cache_stats w = Ok docker_stats ∧
    update_metrics w reg = Done () reg' ∧
    (∀ c, c ∈ containers w → is_Some (dict_get (node_label c) docker_stats)) ∧
    (∀ before c after,
       containers w = (before ++ c :: after)%list →
       (∀ c', c' ∈ after → node_label c' ≠ node_label c) →
       (∀ s, sample_container w c = Ok s →
          dict_get (node_label c) docker_stats = Some s) ∧
       (∀ e, sample_container w c = Raise e →
          dict_get (node_label c) docker_stats = Some zero_cache_stats)) ∧
    (∀ c d cs oc,
       let du := w (DuDisk c d) in
       let fc := w (FindCount c d) in
       let size := (p ← index (PyStr.split_ws (PyStr.strip (stdout du))) 0; int p) in
       let count := int (PyStr.strip (stdout fc)) in
       let du_skipped := returncode du ≠ 0 ∨ PyStr.strip (stdout du) = EmptyString in
       let du_read := returncode du = 0 ∧ PyStr.strip (stdout du) ≠ EmptyString in
       (du_skipped → returncode fc ≠ 0 → disk_step w c (cs, oc) d = Ok (cs, oc)) ∧
       (du_skipped → returncode fc = 0 → ∀ k, count = Ok k →
          disk_step w c (cs, oc) d = Ok (cs, oc + k)) ∧
       (du_read → ∀ n, size = Ok n → returncode fc ≠ 0 →
          disk_step w c (cs, oc) d = Ok (cs + n, oc)) ∧
       (du_read → ∀ n, size = Ok n → returncode fc = 0 → ∀ k, count = Ok k →
          disk_step w c (cs, oc) d = Ok (cs + n, oc + k)) ∧
       (du_read → ∀ e, size = Raise e → disk_step w c (cs, oc) d = Raise e) ∧
       (returncode fc = 0 → ∀ e, count = Raise e →
          ∃ e', disk_step w c (cs, oc) d = Raise e')) ∧
    (∀ c available,
       detect_disks w c = Ok available →
       let disks := match available with [] => [1; 2; 3; 4] | _ => available end in
       let logs := w (LogsCacheStatus c) in
       (∀ size count : Z → Z,
          (∀ d cs oc, d ∈ disks →
             disk_step w c (cs, oc) d = Ok (cs + size d, oc + count d)) →
          ∃ s, sample_container w c = Ok s ∧
            cache_size s = foldr (λ d acc, size d + acc) 0 disks ∧
            object_count s = foldr (λ d acc, count d + acc) 0 disks ∧
            (returncode logs ≠ 0 ∨ stdout logs = EmptyString →
               hits s = 0 ∧ misses s = 0) ∧
            (returncode logs = 0 → stdout logs ≠ EmptyString →
               (hits s, misses s)
               = fold_left count_step (PyStr.splitlines (stdout logs)) (0, 0))) ∧
       (∀ d, d ∈ disks →
          (∃ acc e, disk_step w c acc d = Raise e) →
          ∃ e, sample_container w c = Raise e)) ∧
    (∀ c, unreachable w c → sample_container w c = Ok zero_cache_stats) ∧
    (∀ c w', same_outside c w w' →
       ∃ docker_stats' reg'',
         get_docker_cache_stats w' = Ok docker_stats' ∧
         update_metrics w' reg = Done () reg'' ∧
         ∀ n, is_node_name n → n ≠ node_label c →
           dict_get n docker_stats' = dict_get n docker_stats ∧
           ∀ k, k ∈ node_series n → reg'' !! k = reg' !! k).
Proof.
  intros Hok. pose proof (get_docker_cache_stats_ok w Hok) as Hds.
  destruct (get_docker_cache_stats_keys _ _ Hds) as [Hnames Hnd].
  exists (docker_stats_of w), (apply_writes
    (cycle_writes (docker_stats_of w) (disk_stats_of w) (net_stats_of w)) reg).
  split; [done|]. split; [by apply update_metrics_done|].
  split; [|split; [|split; [|split; [|split]]]].
  - intros c Hc. apply stats_fold_covers. by right.
  - intros before c after Hlist Hafter.
    assert (dict_get (node_label c) (docker_stats_of w) = Some (cache_record w c)) as Hrec.
    { unfold docker_stats_of. rewrite Hlist, stats_fold_app.
      apply stats_fold_last; [|right; by left].
      intros c' Hc' Hlabel. apply elem_of_cons in Hc' as [->|Hc']; [done|].
      by destruct (Hafter c' Hc'). }
    split.
    + intros s Hs. rewrite Hrec. unfold cache_record. by rewrite Hs.
    + intros e He. rewrite Hrec. unfold cache_record. by rewrite He.
  - intros c d cs oc. apply disk_step_by_cases.
  - intros c available Hdetect. by apply sample_container_by_slots.
  - intros c. apply sample_container_unreachable.
  - intros c w' Hsame.
    assert (containers w' = containers w) as Hcs.
    { unfold containers. by rewrite (Hsame DockerPs). }
    assert (discovery_ok w' = true) as Hok' by (unfold discovery_ok; by rewrite Hcs).
    pose proof (get_docker_cache_stats_ok w' Hok') as Hds'.
    destruct (get_docker_cache_stats_keys _ _ Hds') as [Hnames' Hnd'].
    exists (docker_stats_of w'), (apply_writes
      (cycle_writes (docker_stats_of w') (disk_stats_of w') (net_stats_of w')) reg).
    split; [done|]. split; [by apply update_metrics_done|].
    intros n Hname Hn.
    assert (dict_get n (docker_stats_of w') = dict_get n (docker_stats_of w)) as Hget.
    { unfold docker_stats_of. rewrite Hcs. by apply (stats_fold_same_outside w w' c). }
    split; [done|]. intros k Hk.
    by apply (cycle_lookup_node_determined _ _ _ _ _ _ _ n).
Qed.

Lemma same_outside_garbled :
  same_outside "tc-nginx-nginx-cache-1-1" world_garbled world_demo.
Proof.
  intros c Hc. destruct c as [|k|k d|k d|k|p|k]; try done.
  unfold world_garbled.
  destruct (String.eqb_spec k "tc-nginx-nginx-cache-1-1") as [->|Hne]; [|done].
  by destruct Hc.
Qed.

(** In [world_garbled] the size of the first slot of node 1 is not a
    number: the slot raises, the sample raises, the node is recorded as
    all zero, and node 2 is recorded and published as in [world_demo]. *)
Lemma C6_sampler_failure_witness :
  discovery_ok world_garbled = true ∧
  ∃ docker_stats reg' reg'',
    get_docker_cache_stats world_garbled = Ok docker_stats ∧
    update_metrics world_garbled ∅ = Done () reg' ∧
    update_metrics world_demo ∅ = Done () reg'' ∧
    disk_step world_garbled "tc-nginx-nginx-cache-1-1" (0, 0) 1 = Raise ValueError ∧
    (∃ e, sample_container world_garbled "tc-nginx-nginx-cache-1-1" = Raise e) ∧
    dict_get "nginx-cache-1" docker_stats = Some zero_cache_stats ∧
    dict_get "nginx-cache-2" docker_stats
      = dict_get "nginx-cache-2" (docker_stats_of world_demo) ∧
    ∀ k, k ∈ node_series "nginx-cache-2" → reg'' !! k = reg' !! k.
Proof.
  split; [reflexivity|].
  destruct (C6_sampler_failure_is_contained world_garbled ∅)
    as (ds & reg' & Hds & Hreg & _ & Hrec & Hstep & Hsample & _ & Hother);
    [reflexivity|].
  destruct (Hother _ _ same_outside_garbled) as (ds' & reg'' & Hds' & Hreg'' & Hsame).
  assert (Ok ds' = Ok (docker_stats_of world_demo)) as [= ->]
    by (rewrite <- Hds'; reflexivity).
  destruct (Hsame "nginx-cache-2") as [Hget Hpub]; [reflexivity|by vm_compute|].
  destruct (Hstep "tc-nginx-nginx-cache-1-1" 1 0 0) as (_ & _ & _ & _ & Hgarbled & _).
  assert (disk_step world_garbled "tc-nginx-nginx-cache-1-1" (0, 0) 1 = Raise ValueError)
    as Hslot.
  { apply Hgarbled; [split; [reflexivity|by vm_compute]|reflexivity]. }
  destruct (Hsample "tc-nginx-nginx-cache-1-1" [1; 2] eq_refl) as [_ Hraises].
  destruct (Hraises 1) as [e He].
  { rewrite !elem_of_cons. tauto. }
  { by exists (0, 0), ValueError. }
  destruct (Hrec [] "tc-nginx-nginx-cache-1-1" ["tc-nginx-nginx-cache-2-1"])
    as [_ Hzero].
  { reflexivity. }
  { intros c' Hc'. apply list_elem_of_singleton in Hc' as ->. by vm_compute. }
  exists ds, reg', reg''.
  split; [done|]. split; [done|]. split; [done|]. split; [done|].
  split; [by exists e|]. split; [exact (Hzero e He)|].
  split; [by symmetry|done].
Defined.

(** ** The log window, line by line *)

Lemma count_fold_by_lines lines h m :
  fold_left count_step lines (h, m)
  = (h + count_lines (PyStr.contains "CacheStatus=HIT") lines,
     m + count_lines (λ line, negb (PyStr.contains "CacheStatus=HIT" line)
                              && PyStr.contains "CacheStatus=MISS" line) lines).
Proof.
  unfold count_lines. revert h m.
  induction lines as [|line lines IH]; intros h m.
  - simpl. by rewrite !Z.add_0_r.
  - cbn [fold_left List.filter]. unfold count_step at 2.
    destruct (PyStr.contains "CacheStatus=HIT" line); cbn [negb andb].
    + rewrite IH. cbn [length]. f_equal; lia.
    + destruct (PyStr.contains "CacheStatus=MISS" line).
      * rewrite IH. cbn [length]. f_equal; lia.
      * by rewrite IH.
Qed.

Lemma count_lines_bounds test test' lines :
  (∀ line, test line = true → test' line = false) →
  0 ≤ count_lines test lines ∧ 0 ≤ count_lines test' lines ∧
  count_lines test lines + count_lines test' lines ≤ Z.of_nat (length lines).
Proof.
  intros Hexcl. unfold count_lines.
  induction lines as [|line lines IH]; [simpl; lia|].
  cbn [List.filter length].
  destruct (test line) eqn:E.
  - rewrite (Hexcl line E). cbn [length]. lia.
  - destruct (test' line); cbn [length]; lia.
Qed.

(** The hit and miss counts of a sample, read off the log window: hits
    is the number of lines with the hit marker, misses the number of
    lines with the miss marker and without the hit marker, so a line with
    both markers counts as a hit and as nothing else.  Both are 0 when
    the log command exits non-zero or prints nothing.  Hence neither is
    negative and together they never exceed the number of lines. *)
Theorem sampled_counts_bounded_by_lines (w : world) (container : string)
    (s : cache_stats) :
  sample_container w container = Ok s →
  let logs := w (LogsCacheStatus container) in
  let lines := PyStr.splitlines (stdout logs) in
  (returncode logs = 0 → stdout logs ≠ EmptyString →
     hits s = count_lines (PyStr.contains "CacheStatus=HIT") lines ∧
     misses s = count_lines (λ line, negb (PyStr.contains "CacheStatus=HIT" line)
                                     && PyStr.contains "CacheStatus=MISS" line) lines) ∧
  (returncode logs ≠ 0 ∨ stdout logs = EmptyString → hits s = 0 ∧ misses s = 0) ∧
  (∀ acc line, PyStr.contains "CacheStatus=HIT" line = true →
     PyStr.contains "CacheStatus=MISS" line = true →
     count_step acc line = (acc.1 + 1, acc.2)) ∧
  0 ≤ hits s ∧ 0 ≤ misses s ∧
  hits s + misses s ≤ Z.of_nat (length lines).
Proof.
  intros Hs logs lines.
  assert ((returncode logs = 0 → stdout logs ≠ EmptyString →
     hits s = count_lines (PyStr.contains "CacheStatus=HIT") lines ∧
     misses s = count_lines (λ line, negb (PyStr.contains "CacheStatus=HIT" line)
                                     && PyStr.contains "CacheStatus=MISS" line) lines) ∧
    (returncode logs ≠ 0 ∨ stdout logs = EmptyString → hits s = 0 ∧ misses s = 0))
    as [Hread Hskip].
  { unfold sample_container in Hs.
    destruct (detect_disks w container) as [disks|e]; simpl in Hs; [|done].
    destruct (for_each _ _ _) as [[cs oc]|e]; simpl in Hs; [|done].
    fold logs in Hs. fold lines in Hs.
    rewrite (count_fold_by_lines lines 0 0) in Hs.
    destruct (Z.eqb_spec (returncode logs) 0) as [Hrc|Hrc];
      destruct (stdout logs) as [|a out] eqn:Eout; simpl in Hs; simplify_eq; simpl.
    - split; [done|]. intros _. done.
    - split; [by intros _ _|]. intros [Hx|Hx]; [done|discriminate Hx].
    - split; [done|]. intros _. done.
    - split; [done|]. intros _. done. }
  split; [done|]. split; [done|]. split.
  { intros [h m] line Hhit _. unfold count_step. by rewrite Hhit. }
  pose proof (count_lines_bounds (PyStr.contains "CacheStatus=HIT")
    (λ line, negb (PyStr.contains "CacheStatus=HIT" line)
             && PyStr.contains "CacheStatus=MISS" line) lines) as Hb.
  destruct Hb as (H1 & H2 & H3); [by intros line ->|].
  destruct (Z.eqb_spec (returncode logs) 0) as [Hrc|Hrc].
  - destruct (stdout logs) as [|a out] eqn:Eout.
    + destruct Hskip as [-> ->]; [by right|]. lia.
    + destruct Hread as [-> ->]; [done..|]. lia.
  - destruct Hskip as [-> ->]; [by left|]. lia.
Qed.

(** In [world_both_markers] the log of node 1 has a line with both
    markers and a line with the miss marker: one hit, one miss. *)
Lemma sampled_counts_witness :
  ∃ s,
    sample_container world_both_markers "tc-nginx-nginx-cache-1-1" = Ok s ∧
    hits s = 1 ∧ misses s = 1 ∧
    length (PyStr.splitlines
              (stdout (world_both_markers (LogsCacheStatus "tc-nginx-nginx-cache-1-1"))))
      = 2%nat.
Proof.
  exists (CacheStats 1000 100 1 1). split; [reflexivity|].
  destruct (sampled_counts_bounded_by_lines world_both_markers "tc-nginx-nginx-cache-1-1"
              (CacheStats 1000 100 1 1) eq_refl) as ([Hh Hm] & _); [reflexivity|done|].
  split; [exact Hh|]. split; [exact Hm|reflexivity].
Defined.
